(* ===================================================================== *)
(*  pth.hxx : a lightweight Pthread RAII wrapper -- shallow embedding     *)
(* ===================================================================== *)
(* The wrapper classes of namespace pth are embedded as programs of a
   small state-and-abort monad.  The state holds the objects the wrappers
   live in (addressed, so that two references may name the same object),
   and the log of the calls made into the pthread library.  The pthread
   library itself is an external collaborator: its integer results and
   the clock reading come from an environment. *)

From Stdlib Require Import ZArith Lia String List.
From stdpp Require Import base option gmap.

Local Open Scope Z_scope.

(* --------------------------------------------------------------------- *)
(* Machine integers                                                       *)
(* --------------------------------------------------------------------- *)

(* long and time_t are 64-bit signed (LP64).  Signed overflow is undefined
   in C++; the model wraps in two's complement and the theorems say where
   no overflow occurs. *)
Definition LONG_MIN : Z := - 2 ^ 63.
Definition LONG_MAX : Z := 2 ^ 63 - 1.

Definition wrap_long (z : Z) : Z := (z + 2 ^ 63) mod 2 ^ 64 - 2 ^ 63.

Definition in_long (z : Z) : Prop := LONG_MIN <= z <= LONG_MAX.

Definition long_add (a b : Z) : Z := wrap_long (a + b).
Definition long_sub (a b : Z) : Z := wrap_long (a - b).
Definition long_mul (a b : Z) : Z := wrap_long (a * b).
(* C++ division truncates towards zero, the remainder takes the sign of
   the dividend. *)
Definition long_div (a b : Z) : Z := wrap_long (Z.quot a b).
Definition long_rem (a b : Z) : Z := wrap_long (Z.rem a b).

(* <cerrno>, Linux values *)
Definition EBUSY : Z := 16.
Definition EINVAL : Z := 22.
Definition ETIMEDOUT : Z := 110.

(* --------------------------------------------------------------------- *)
(* Objects                                                                *)
(* --------------------------------------------------------------------- *)

Definition addr := positive.
Bind Scope positive_scope with addr.
Definition pthread_t := Z.
Definition tid := Z.

(* What the pthread library keeps in a pthread_mutex_t object. *)
Inductive pthread_mutex_t : Type :=
| Unlocked
| LockedBy (owner : tid).

(* std::timespec *)
Record timespec : Type := mk_timespec { tv_sec : Z; tv_nsec : Z }.

(* class pth::thread, its two private members *)
Record thread_obj : Type := mk_thread { _handle : pthread_t; _joinable : bool }.

#[global] Instance pthread_mutex_t_eq_dec : EqDecision pthread_mutex_t.
Proof. solve_decision. Defined.
#[global] Instance timespec_eq_dec : EqDecision timespec.
Proof. solve_decision. Defined.
#[global] Instance thread_obj_eq_dec : EqDecision thread_obj.
Proof. solve_decision. Defined.

(* --------------------------------------------------------------------- *)
(* Calls into the pthread library                                         *)
(* --------------------------------------------------------------------- *)

(* Pointer arguments are addresses; pthread_t is passed by value. *)
Inductive oscall : Type :=
| pthread_join (h : pthread_t) (retval : option addr)
| pthread_detach (h : pthread_t)
| pthread_mutex_lock (m : addr)
| pthread_mutex_unlock (m : addr)
| pthread_mutex_trylock (m : addr)
| pthread_rwlock_tryrdlock (l : addr)
| pthread_rwlock_trywrlock (l : addr)
| pthread_spin_trylock (s : addr)
| pthread_cond_signal (c : addr)
| pthread_cond_wait (c m : addr)
| pthread_cond_timedwait (c m : addr) (abstime : timespec).

#[global] Instance oscall_eq_dec : EqDecision oscall.
Proof. solve_decision. Defined.

(* What the wrapper does, as seen from outside. *)
Inductive event : Type :=
| Call (c : oscall)
(* the calling context is suspended inside the library; the argument is
   the state of the mutex objects while it sleeps *)
| Suspended (view : gmap addr pthread_mutex_t).

(* The environment: the result of each library call, the clock, and the
   identity of the calling thread. *)
Record env : Type := mk_env {
  os_result : oscall -> Z;
  os_clock : timespec;
  self : tid
}.

Record world : Type := mk_world {
  mutexes : gmap addr pthread_mutex_t;  (* pthread_mutex_t objects alive *)
  threads : gmap addr thread_obj;       (* pth::thread objects alive *)
  log : list event                      (* most recent last *)
}.

(* NDEBUG defined or not *)
Inductive build : Type := Debug | NDEBUG.

(* --------------------------------------------------------------------- *)
(* The monad                                                              *)
(* --------------------------------------------------------------------- *)

Inductive outcome (A : Type) : Type :=
| Done (a : A) (w : world)
| Aborted (diagnostic : string) (w : world)  (* assert failed: abort() *)
| Undefined.                                 (* access outside any object *)
Arguments Done {A} a w.
Arguments Aborted {A} diagnostic w.
Arguments Undefined {A}.

Definition M (A : Type) : Type := env -> world -> outcome A.

Definition ret {A} (a : A) : M A := fun _ w => Done a w.

Definition bind {A B} (m : M A) (k : A -> M B) : M B :=
  fun e w =>
    match m e w with
    | Done a w' => k a e w'
    | Aborted d w' => Aborted d w'
    | Undefined => Undefined
    end.

#[global] Instance M_ret : MRet M := @ret.
#[global] Instance M_bind : MBind M := fun A B k m => bind m k.

Definition abort {A} (diagnostic : string) : M A :=
  fun _ w => Aborted diagnostic w.

Definition modify (f : world -> world) : M unit :=
  fun _ w => Done tt (f w).

Definition ask {A} (f : env -> A) : M A :=
  fun e w => Done (f e) w.

(* The world after some more events. *)
Definition logged (w : world) (evs : list event) : world :=
  mk_world (mutexes w) (threads w) (log w ++ evs).

Definition emit (ev : event) : M unit :=
  modify (fun w => logged w [ev]).

(* --------------------------------------------------------------------- *)
(* Memory                                                                 *)
(* --------------------------------------------------------------------- *)

Definition set_mutexes (f : gmap addr pthread_mutex_t -> gmap addr pthread_mutex_t)
    (w : world) : world :=
  mk_world (f (mutexes w)) (threads w) (log w).

Definition set_threads (f : gmap addr thread_obj -> gmap addr thread_obj)
    (w : world) : world :=
  mk_world (mutexes w) (f (threads w)) (log w).

(* Reading a pthread_mutex_t by value. *)
Definition load_mutex (a : addr) : M pthread_mutex_t :=
  fun _ w => match mutexes w !! a with
             | Some v => Done v w
             | None => Undefined
             end.

(* Automatic storage: the address a new local gets is one that no live
   pthread_mutex_t object has. *)
Definition address_of_local (w : world) : addr := fresh (dom (mutexes w)).

(* A local variable of type pthread_mutex_t, initialised with v: a new
   object. *)
Definition declare_local (v : pthread_mutex_t) : M addr :=
  fun _ w => let a := address_of_local w in
             Done a (set_mutexes (insert a v) w).

Definition end_of_scope (a : addr) : M unit :=
  modify (set_mutexes (delete a)).

(* { T x = v; body }  *)
Definition with_local {A} (v : pthread_mutex_t) (body : addr -> M A) : M A :=
  x ← declare_local v;
  r ← body x;
  end_of_scope x;;
  mret r.

Definition read_thread (a : addr) : M thread_obj :=
  fun _ w => match threads w !! a with
             | Some t => Done t w
             | None => Undefined
             end.

Definition write_handle (a : addr) (h : pthread_t) : M unit :=
  t ← read_thread a;
  modify (set_threads (insert a (mk_thread h (_joinable t)))).

Definition write_joinable (a : addr) (j : bool) : M unit :=
  t ← read_thread a;
  modify (set_threads (insert a (mk_thread (_handle t) j))).

(* --------------------------------------------------------------------- *)
(* The pthread library                                                    *)
(* --------------------------------------------------------------------- *)

(* The library is not part of pth.hxx.  Its results come from the
   environment; what it does to the mutex object it is handed follows the
   POSIX contract: lock and a successful trylock make the caller the
   owner, unlock clears it, and a condition wait releases the mutex it was
   given, suspends the caller, and re-acquires that mutex. *)
Definition acquire (m : addr) : M unit :=
  fun e w => match mutexes w !! m with
             | Some _ => Done tt (set_mutexes (insert m (LockedBy (self e))) w)
             | None => Undefined
             end.

Definition release (m : addr) : M unit :=
  fun _ w => match mutexes w !! m with
             | Some _ => Done tt (set_mutexes (insert m Unlocked) w)
             | None => Undefined
             end.

Definition suspend : M unit :=
  fun e w => emit (Suspended (mutexes w)) e w.

Definition cond_wait_effect (m : addr) : M unit :=
  release m;; suspend;; acquire m.

Definition os_effect (c : oscall) (r : Z) : M unit :=
  match c with
  | pthread_mutex_lock m | pthread_mutex_trylock m =>
      if r =? 0 then acquire m else mret tt
  | pthread_mutex_unlock m =>
      if r =? 0 then release m else mret tt
  | pthread_cond_wait _ m =>
      if r =? 0 then cond_wait_effect m else mret tt
  | pthread_cond_timedwait _ m _ =>
      if (r =? 0) || (r =? ETIMEDOUT) then cond_wait_effect m else mret tt
  | _ => mret tt
  end.

Definition sys (c : oscall) : M Z :=
  emit (Call c);;
  r ← ask (fun e => os_result e c);
  os_effect c r;;
  mret r.

Definition clock_gettime_REALTIME : M timespec := ask os_clock.

(* --------------------------------------------------------------------- *)
(* ASSERT_EQ0                                                             *)
(* --------------------------------------------------------------------- *)

(* The value of the argument of assert. *)
Inductive expr_value : Type :=
| IntVal (z : Z)
| StrLit (s : string).

(* Contextual conversion to bool: an integer is true when it is not zero;
   a string literal is an array, it decays to the address of its first
   character, which is not the null pointer. *)
Definition to_bool (v : expr_value) : bool :=
  match v with
  | IntVal z => negb (z =? 0)
  | StrLit _ => true
  end.

(* <cassert>, NDEBUG not defined: abort when the argument is false. *)
Definition assert (v : expr_value) (text : string) : M unit :=
  if to_bool v then mret tt else abort text.

(*  #if defined NDEBUG
    # define ASSERT_EQ0(X) void(0)
    #else
    # define ASSERT_EQ0(X) ( (X == 0) ? void(0) : []{assert(#X " != 0");}() )
    #endif
   The argument X is an expression: under NDEBUG it is dropped unevaluated.
   text is #X. *)
Definition ASSERT_EQ0 (b : build) (text : string) (X : M Z) : M unit :=
  match b with
  | NDEBUG => mret tt
  | Debug =>
      x ← X;
      if x =? 0 then mret tt
      else let lit := (text ++ " != 0")%string in assert (StrLit lit) lit
  end.

(* --------------------------------------------------------------------- *)
(* class thread                                                           *)
(* --------------------------------------------------------------------- *)

Module thread.

(* An object is constructed in storage that holds no live thread. *)
Definition construct (this : addr) (t : thread_obj) : M unit :=
  fun e w => match threads w !! this with
             | Some _ => Undefined
             | None => modify (set_threads (insert this t)) e w
             end.

Definition destroy (this : addr) : M unit :=
  modify (set_threads (delete this)).

Definition read_handle (this : addr) : M pthread_t :=
  t ← read_thread this; mret (_handle t).

(* bool joinable() const noexcept { return _joinable; } *)
Definition joinable (this : addr) : M bool :=
  t ← read_thread this; mret (_joinable t).

(* ::pthread_t native_handle() noexcept { return _handle; } *)
Definition native_handle (this : addr) : M pthread_t := read_handle this.

(* std::exchange(obj, new_value): obj takes new_value, the old value is
   returned. *)
Definition exchange_handle (obj : addr) (new_value : pthread_t) : M pthread_t :=
  old ← read_handle obj;
  write_handle obj new_value;;
  mret old.

Definition exchange_joinable (obj : addr) (new_value : bool) : M bool :=
  old ← joinable obj;
  write_joinable obj new_value;;
  mret old.

(* thread() noexcept : _handle(0L), _joinable(false) { } *)
Definition default_ctor (this : addr) : M unit :=
  construct this (mk_thread 0 false).

(* thread(thread&& other) noexcept
   The two members are assigned in the body, _handle first; the object is
   live once both are. *)
Definition move_ctor (this other : addr) : M unit :=
  h ← exchange_handle other 0;
  j ← exchange_joinable other false;
  construct this (mk_thread h j).

(* thread& operator=(thread&& other) noexcept *)
Definition move_assign (this other : addr) : M addr :=
  h ← exchange_handle other 0;
  write_handle this h;;
  j ← exchange_joinable other false;
  write_joinable this j;;
  mret this.

(* void join(void** retval = nullptr) *)
Definition join (b : build) (this : addr) (retval : option addr) : M unit :=
  j ← joinable this;
  if (j : bool) then
    (ASSERT_EQ0 b "::pthread_join( _handle, retval)"
       (h ← read_handle this; sys (pthread_join h retval));;
     write_joinable this false)
  else mret tt.

(* void detach() *)
Definition detach (b : build) (this : addr) : M unit :=
  ASSERT_EQ0 b "::pthread_detach( _handle )"
    (h ← read_handle this; sys (pthread_detach h)).

(* ~thread() *)
Definition dtor (b : build) (this : addr) : M unit :=
  j ← joinable this;
  (if (j : bool) then join b this None else mret tt);;
  destroy this.

End thread.

(* --------------------------------------------------------------------- *)
(* class mutex, class rwlock, class spinlock                              *)
(* --------------------------------------------------------------------- *)

(* The wrapper object holds its native handle as its only member: the
   address of the wrapper is the address of _handle. *)

Module mutex.

(* void lock() *)
Definition lock (b : build) (this : addr) : M unit :=
  ASSERT_EQ0 b "::pthread_mutex_lock( &_handle )" (sys (pthread_mutex_lock this)).

(* void unlock() *)
Definition unlock (b : build) (this : addr) : M unit :=
  ASSERT_EQ0 b "::pthread_mutex_unlock( &_handle )" (sys (pthread_mutex_unlock this)).

(* bool trylock() *)
Definition trylock (b : build) (this : addr) : M bool :=
  retval ← sys (pthread_mutex_trylock this);
  if retval =? EBUSY then mret false
  else (ASSERT_EQ0 b "retval" (mret retval);; mret true).

(* ::pthread_mutex_t native_handle() { return _handle; }
   The handle is returned by value. *)
Definition native_handle (this : addr) : M pthread_mutex_t := load_mutex this.

End mutex.

Module rwlock.

(* bool tryrdlock() *)
Definition tryrdlock (b : build) (this : addr) : M bool :=
  retval ← sys (pthread_rwlock_tryrdlock this);
  if retval =? EBUSY then mret false
  else (ASSERT_EQ0 b "retval" (mret retval);; mret true).

(* bool trywrlock() *)
Definition trywrlock (b : build) (this : addr) : M bool :=
  retval ← sys (pthread_rwlock_trywrlock this);
  if retval =? EBUSY then mret false
  else (ASSERT_EQ0 b "retval" (mret retval);; mret true).

End rwlock.

Module spinlock.

(* bool trylock() *)
Definition trylock (b : build) (this : addr) : M bool :=
  retval ← sys (pthread_spin_trylock this);
  if retval =? EBUSY then mret false
  else (ASSERT_EQ0 b "retval" (mret retval);; mret true).

End spinlock.

(* --------------------------------------------------------------------- *)
(* class cond_var                                                         *)
(* --------------------------------------------------------------------- *)

Module cond_var.


(* void wait( mutex& mtx ) *)
Definition wait (b : build) (this mtx : addr) : M unit :=
  v ← mutex.native_handle mtx;
  with_local v (fun nh =>
    ASSERT_EQ0 b "::pthread_cond_wait( &_handle, &nh )"
      (sys (pthread_cond_wait this nh))).

Definition NS_PER_SEC : Z := 1000000000.

(* The deadline timedwait computes from the clock reading. *)
Definition abstime (now : timespec) (nsec : Z) : timespec :=
  let sec0 := long_add (tv_sec now) (long_div nsec NS_PER_SEC) in
  let nsec0 := long_add (tv_nsec now) (long_rem nsec NS_PER_SEC) in
  let over := long_div nsec0 NS_PER_SEC in
  if negb (long_div nsec0 NS_PER_SEC =? 0) then
    mk_timespec (long_add sec0 over) (long_sub nsec0 (long_mul over NS_PER_SEC))
  else mk_timespec sec0 nsec0.

(* int timedwait( mutex& mtx, long nsec ) *)
Definition timedwait (b : build) (this mtx : addr) (nsec : Z) : M Z :=
  now ← clock_gettime_REALTIME;
  let abstime := abstime now nsec in
  v ← mutex.native_handle mtx;
  with_local v (fun nh =>
    retval ← sys (pthread_cond_timedwait this nh abstime);
    if retval =? ETIMEDOUT then mret ETIMEDOUT
    else (ASSERT_EQ0 b "retval" (mret retval);; mret 0)).

End cond_var.

(* What a move from other to this leaves behind, starting in w and ending
   in w1: this holds what other held, other is in the no-thread state, no
   library call was made, and destroying other makes none either. *)
Definition transferred (b : build) (e : env) (w w1 : world)
    (this other : addr) (s : thread_obj) : Prop :=
  threads w1 !! this = Some s /\
  threads w1 !! other = Some (mk_thread 0 false) /\
  log w1 = log w /\
  exists w2,
    thread.dtor b other e w1 = Done tt w2 /\
    log w2 = log w1 /\
    threads w2 !! this = Some s.

(* --------------------------------------------------------------------- *)
(* Concrete states used in the examples                                   *)
(* --------------------------------------------------------------------- *)

(* The library answers every call with r; the clock reads now; the caller
   is thread 7. *)
Definition answering (r : Z) (now : timespec) : env :=
  mk_env (fun _ => r) now 7.

Definition a_clock : timespec := mk_timespec 100 999999999.

(* A mutex at address 1 held by the caller; a joinable thread 42 owned by
   the wrapper at address 1, a joinable thread 43 by the wrapper at
   address 2, a default-constructed wrapper at address 3. *)
Definition a_world : world :=
  mk_world {[ 1%positive := LockedBy 7 ]}
           {[ 1%positive := mk_thread 42 true;
              2%positive := mk_thread 43 true;
              3%positive := mk_thread 0 false ]}
           [].

(* --------------------------------------------------------------------- *)
(* playwpth.cxx: joining the workers                                      *)
(* --------------------------------------------------------------------- *)


(* --------------------------------------------------------------------- *)
(* Vocabulary of the further properties                                   *)
(* --------------------------------------------------------------------- *)


(* No two live thread objects answer for the same thread. *)
Definition unique_owners (ts : gmap addr thread_obj) : Prop :=
  forall a1 a2 t1 t2,
    ts !! a1 = Some t1 -> ts !! a2 = Some t2 ->
    _joinable t1 = true -> _joinable t2 = true ->
    _handle t1 = _handle t2 -> a1 = a2.

(* The calls a build makes where the source wraps them in ASSERT_EQ0. *)
Definition when_checked (b : build) (evs : list event) : list event :=
  match b with
  | Debug => evs
  | NDEBUG => []
  end.

(* The whole value of a timespec, in nanoseconds. *)
Definition nanoseconds (t : timespec) : Z :=
  tv_sec t * cond_var.NS_PER_SEC + tv_nsec t.

(* ===================================================================== *)
(* Running the monad                                                      *)
(* ===================================================================== *)

Section Running.
Context {A B : Type}.

Lemma bind_done (m : M A) (k : A -> M B) e w a w' :
  m e w = Done a w' -> (m ≫= k) e w = k a e w'.
Proof. intros H. unfold mbind, M_bind, bind. now rewrite H. Qed.

End Running.

Section ThreadObjects.
Variables (e : env) (w : world) (a : addr) (t : thread_obj).
Hypothesis Hlive : threads w !! a = Some t.

Lemma read_thread_done : read_thread a e w = Done t w.
Proof. unfold read_thread. now rewrite Hlive. Qed.

Lemma read_handle_done : thread.read_handle a e w = Done (_handle t) w.
Proof. unfold thread.read_handle. now rewrite (bind_done _ _ _ _ _ _ read_thread_done). Qed.

Lemma joinable_done : thread.joinable a e w = Done (_joinable t) w.
Proof. unfold thread.joinable. now rewrite (bind_done _ _ _ _ _ _ read_thread_done). Qed.

Lemma write_handle_done h :
  write_handle a h e w
  = Done tt (set_threads (insert a (mk_thread h (_joinable t))) w).
Proof. unfold write_handle. now rewrite (bind_done _ _ _ _ _ _ read_thread_done). Qed.

Lemma write_joinable_done j :
  write_joinable a j e w
  = Done tt (set_threads (insert a (mk_thread (_handle t) j)) w).
Proof. unfold write_joinable. now rewrite (bind_done _ _ _ _ _ _ read_thread_done). Qed.
End ThreadObjects.

(* ===================================================================== *)
(* ASSERT_EQ0 and the library calls                                       *)
(* ===================================================================== *)

Ltac step tac := erewrite bind_done by tac.

Ltac same_map :=
  apply map_eq; intros ?; rewrite ?lookup_insert, ?lookup_delete;
  repeat case_decide; simplify_eq; try done.

Lemma same_world (w : world) ms ts l :
  ms = mutexes w -> ts = threads w -> l = log w -> mk_world ms ts l = w.
Proof. destruct w; cbn; congruence. Qed.

Lemma logged_nil w : logged w [] = w.
Proof. unfold logged. apply same_world; cbn; try done. apply app_nil_r. Qed.

(* to_bool of a string literal is true: the assert inside ASSERT_EQ0 passes
   whatever X evaluated to. *)
Lemma ASSERT_EQ0_debug text (X : M Z) e w x w' :
  X e w = Done x w' -> ASSERT_EQ0 Debug text X e w = Done tt w'.
Proof.
  intros HX. unfold ASSERT_EQ0. step ltac:(exact HX).
  destruct (x =? 0); reflexivity.
Qed.

Lemma ASSERT_EQ0_ndebug text (X : M Z) e w :
  ASSERT_EQ0 NDEBUG text X e w = Done tt w.
Proof. reflexivity. Qed.

Lemma emit_done ev e w : emit ev e w = Done tt (logged w [ev]).
Proof. reflexivity. Qed.

(* A call that leaves the mutex objects alone. *)
Lemma sys_done c e w :
  (forall r, os_effect c r = mret tt) ->
  sys c e w = Done (os_result e c) (logged w [Call c]).
Proof.
  intros Heff. unfold sys.
  step ltac:(apply emit_done).
  step ltac:(reflexivity).
  rewrite Heff. reflexivity.
Qed.

(* ===================================================================== *)
(* class thread: moves, join, detach                                      *)
(* ===================================================================== *)

Section ThreadMethods.
Variables (e : env) (w : world) (this : addr) (t : thread_obj).
Hypothesis Hthis : threads w !! this = Some t.

Lemma join_skipped b retval :
  _joinable t = false -> thread.join b this retval e w = Done tt w.
Proof.
  intros Hj. unfold thread.join.
  step ltac:(apply joinable_done, Hthis). now rewrite Hj.
Qed.

Lemma join_done b retval :
  _joinable t = true ->
  thread.join b this retval e w
  = Done tt (mk_world (mutexes w)
               (<[this := mk_thread (_handle t) false]> (threads w))
               (log w ++ match b with
                         | Debug => [Call (pthread_join (_handle t) retval)]
                         | NDEBUG => []
                         end)).
Proof.
  intros Hj. unfold thread.join.
  step ltac:(apply joinable_done, Hthis). rewrite Hj.
  destruct b.
  - step ltac:(eapply ASSERT_EQ0_debug;
               step ltac:(apply read_handle_done, Hthis);
               now apply sys_done).
    now rewrite (write_joinable_done _ _ _ t).
  - step ltac:(apply ASSERT_EQ0_ndebug).
    rewrite (write_joinable_done _ _ _ t) by done.
    unfold set_threads. now rewrite app_nil_r.
Qed.

Lemma detach_done b :
  thread.detach b this e w
  = Done tt (logged w match b with
                      | Debug => [Call (pthread_detach (_handle t))]
                      | NDEBUG => []
                      end).
Proof.
  unfold thread.detach. destruct b.
  - eapply ASSERT_EQ0_debug.
    step ltac:(apply read_handle_done, Hthis). now apply sys_done.
  - now rewrite ASSERT_EQ0_ndebug, logged_nil.
Qed.

Lemma dtor_not_joinable b :
  _joinable t = false ->
  thread.dtor b this e w = Done tt (set_threads (delete this) w).
Proof.
  intros Hj. unfold thread.dtor.
  step ltac:(apply joinable_done, Hthis). rewrite Hj.
  step ltac:(reflexivity). reflexivity.
Qed.

Lemma dtor_joinable b :
  _joinable t = true ->
  thread.dtor b this e w
  = Done tt (mk_world (mutexes w) (delete this (threads w))
               (log w ++ match b with
                         | Debug => [Call (pthread_join (_handle t) None)]
                         | NDEBUG => []
                         end)).
Proof.
  intros Hj. unfold thread.dtor.
  step ltac:(apply joinable_done, Hthis). rewrite Hj.
  step ltac:(now apply join_done).
  unfold thread.destroy, modify, set_threads; cbn.
  now rewrite delete_insert_eq.
Qed.
End ThreadMethods.

Section ThreadMoves.
Variables (e : env) (w : world) (this other : addr) (s : thread_obj).
Hypothesis Hother : threads w !! other = Some s.

Ltac run_move :=
  repeat progress
    unfold thread.move_assign, thread.move_ctor, thread.exchange_handle,
      thread.exchange_joinable, thread.read_handle, thread.joinable,
      thread.construct, write_handle, write_joinable, read_thread, modify,
      set_threads, mbind, M_bind, bind, mret, M_ret, ret;
  cbn.

(* Move assignment between two different objects. *)
Lemma move_assign_distinct d :
  threads w !! this = Some d ->
  this <> other ->
  thread.move_assign this other e w
  = Done this (set_threads (fun m => <[this := s]> (<[other := mk_thread 0 false]> m)) w).
Proof.
  intros Hd Hne. run_move.
  rewrite Hother; cbn. repeat (simplify_map_eq; cbn).
  unfold set_threads; cbn. do 2 f_equal. destruct s; cbn. same_map.
Qed.

Lemma move_ctor_done :
  threads w !! this = None ->
  thread.move_ctor this other e w
  = Done tt (set_threads (fun m => <[this := s]> (<[other := mk_thread 0 false]> m)) w).
Proof.
  intros Hn. assert (this <> other) by congruence. run_move.
  rewrite Hother; cbn. repeat (simplify_map_eq; cbn).
  unfold set_threads; cbn. do 2 f_equal. destruct s; cbn. same_map.
Qed.

(* t = std::move(t): each exchange clears the member and the assignment
   writes the old value back. *)
Lemma move_assign_self :
  thread.move_assign other other e w = Done other w.
Proof.
  run_move.
  rewrite Hother; cbn. repeat (simplify_map_eq; cbn).
  f_equal. apply same_world; cbn; try done.
  destruct s; cbn. apply map_eq; intros i.
  rewrite !lookup_insert. repeat case_decide; simplify_eq; done.
Qed.
End ThreadMoves.

(* ===================================================================== *)
(* The deadline of timedwait                                              *)
(* ===================================================================== *)

Lemma wrap_long_id z : in_long z -> wrap_long z = z.
Proof.
  unfold in_long, LONG_MIN, LONG_MAX, wrap_long. intros H.
  rewrite Z.mod_small; lia.
Qed.

Ltac no_wrap z :=
  rewrite (wrap_long_id z) by (unfold in_long, LONG_MIN, LONG_MAX; lia).

Section Deadline.
Import cond_var.
Variables (now : timespec) (nsec : Z).
Hypothesis Hclock : 0 <= tv_nsec now < NS_PER_SEC.
Hypothesis Hsec : in_long (tv_sec now).
Hypothesis Hnsec : in_long nsec.

Lemma abstime_nonneg :
  0 <= nsec ->
  tv_sec now + (tv_nsec now + nsec) / NS_PER_SEC <= LONG_MAX ->
  abstime now nsec
  = mk_timespec (tv_sec now + (tv_nsec now + nsec) / NS_PER_SEC)
                ((tv_nsec now + nsec) mod NS_PER_SEC).
Proof.
  intros H0 Hfit.
  unfold abstime, long_add, long_sub, long_mul, long_div, long_rem.
  unfold in_long, LONG_MIN, LONG_MAX, NS_PER_SEC in *.
  pose proof (Z.quot_rem' nsec 1000000000) as Hsplit.
  pose proof (Z.rem_bound_pos nsec 1000000000 ltac:(lia) ltac:(lia)) as Hr.
  pose proof (Z.quot_pos nsec 1000000000 ltac:(lia) ltac:(lia)) as Hq.
  set (q := Z.quot nsec 1000000000) in *.
  set (r := Z.rem nsec 1000000000) in *.
  assert (Hdiv : (tv_nsec now + nsec) / 1000000000 = q + (tv_nsec now + r) / 1000000000).
  { rewrite Hsplit at 1.
    replace (tv_nsec now + (1000000000 * q + r)) with ((tv_nsec now + r) + q * 1000000000) by lia.
    rewrite Z.div_add by lia. lia. }
  assert (Hmod : (tv_nsec now + nsec) mod 1000000000 = (tv_nsec now + r) mod 1000000000).
  { rewrite Hsplit at 1.
    replace (tv_nsec now + (1000000000 * q + r)) with ((tv_nsec now + r) + q * 1000000000) by lia.
    now rewrite Z.mod_add by lia. }
  rewrite Hdiv, Hmod. rewrite Hdiv in Hfit.
  assert (Hover : 0 <= (tv_nsec now + r) / 1000000000 <= 1).
  { split; [apply Z.div_pos; lia|]. apply Z.lt_succ_r. apply Z.div_lt_upper_bound; lia. }
  no_wrap q. no_wrap r. no_wrap (tv_sec now + q). no_wrap (tv_nsec now + r).
  rewrite Z.quot_div_nonneg by lia.
  pose proof (Z.div_mod (tv_nsec now + r) 1000000000 ltac:(lia)) as Hdm.
  set (over := (tv_nsec now + r) / 1000000000) in *.
  no_wrap over.
  destruct (Z.eqb_spec over 0) as [Hz|Hnz]; cbn [negb].
  - f_equal; [lia|]. rewrite Hz in Hdm. lia.
  - assert (over = 1) by lia.
    no_wrap (over * 1000000000). no_wrap (tv_sec now + q + over).
    no_wrap (tv_nsec now + r - over * 1000000000).
    f_equal; lia.
Qed.

(* A negative duration: the quotient and the remainder are not positive,
   the sum of the nanoseconds stays above -NS_PER_SEC, its quotient by
   NS_PER_SEC is zero, and the branch that carries is not taken when that
   sum is negative. *)
Lemma abstime_negative :
  nsec < 0 ->
  tv_nsec now + Z.rem nsec NS_PER_SEC < 0 ->
  LONG_MIN <= tv_sec now + Z.quot nsec NS_PER_SEC ->
  abstime now nsec
  = mk_timespec (tv_sec now + Z.quot nsec NS_PER_SEC)
                (tv_nsec now + Z.rem nsec NS_PER_SEC).
Proof.
  intros H0 Hneg Hfit.
  unfold abstime, long_add, long_sub, long_mul, long_div, long_rem.
  unfold in_long, LONG_MIN, LONG_MAX, NS_PER_SEC in *.
  pose proof (Z.quot_rem' nsec 1000000000) as Hsplit.
  pose proof (Z.rem_bound_pos_neg nsec 1000000000 ltac:(lia) ltac:(lia)) as Hr.
  pose proof (Z.mul_quot_ge nsec 1000000000 ltac:(lia) ltac:(lia)) as Hq.
  set (q := Z.quot nsec 1000000000) in *.
  set (r := Z.rem nsec 1000000000) in *.
  no_wrap q. no_wrap r. no_wrap (tv_sec now + q). no_wrap (tv_nsec now + r).
  assert (Hover : Z.quot (tv_nsec now + r) 1000000000 = 0).
  { apply Z.quot_small_iff; lia. }
  rewrite Hover. reflexivity.
Qed.
End Deadline.

(* ===================================================================== *)
(* class cond_var                                                         *)
(* ===================================================================== *)

Lemma fresh_is_new (w : world) : mutexes w !! address_of_local w = None.
Proof. unfold address_of_local. apply not_elem_of_dom. apply is_fresh. Qed.

Lemma fresh_differs (w : world) (m : addr) v :
  mutexes w !! m = Some v -> address_of_local w <> m.
Proof. intros Hm Heq. rewrite <- Heq, fresh_is_new in Hm. discriminate. Qed.

Lemma with_local_done {A} v (body : addr -> M A) e w r w' :
  body (address_of_local w) e (set_mutexes (insert (address_of_local w) v) w) = Done r w' ->
  with_local v body e w = Done r (set_mutexes (delete (address_of_local w)) w').
Proof.
  intros Hbody. unfold with_local.
  step ltac:(reflexivity). step ltac:(exact Hbody). reflexivity.
Qed.

Lemma cond_wait_effect_done e w m v :
  mutexes w !! m = Some v ->
  cond_wait_effect m e w
  = Done tt (mk_world (<[m := LockedBy (self e)]> (<[m := Unlocked]> (mutexes w)))
               (threads w)
               (log w ++ [Suspended (<[m := Unlocked]> (mutexes w))])).
Proof.
  intros Hm. unfold cond_wait_effect, release, suspend, acquire, emit, modify, logged,
    set_mutexes, mbind, M_bind, bind; cbn.
  rewrite Hm; cbn. now rewrite lookup_insert_eq.
Qed.

Section Waiting.
Variables (e : env) (w : world) (this mtx : addr) (v : pthread_mutex_t).
Hypothesis Hmtx : mutexes w !! mtx = Some v.

Let nh := address_of_local w.

(* The mutex objects while the caller sleeps in a wait on nh. *)
Let asleep := <[nh := Unlocked]> (<[nh := v]> (mutexes w)).

Lemma asleep_caller : asleep !! mtx = Some v.
Proof.
  unfold asleep. pose proof (fresh_differs w mtx v Hmtx).
  rewrite !lookup_insert_ne by done. exact Hmtx.
Qed.

Lemma asleep_copy : asleep !! nh = Some Unlocked.
Proof. unfold asleep. apply lookup_insert_eq. Qed.

Lemma local_gone (x y : pthread_mutex_t) :
  delete nh (<[nh := x]> (<[nh := y]> (<[nh := v]> (mutexes w)))) = mutexes w.
Proof.
  rewrite !delete_insert_eq. apply delete_id, fresh_is_new.
Qed.

Lemma wait_debug_done :
  let c := pthread_cond_wait this nh in
  cond_var.wait Debug this mtx e w
  = Done tt (logged w (Call c :: if os_result e c =? 0 then [Suspended asleep] else [])).
Proof.
  intros c. unfold cond_var.wait, mutex.native_handle.
  step ltac:(unfold load_mutex; rewrite Hmtx; reflexivity).
  assert (Hsys : sys c e (set_mutexes (insert nh v) w)
            = Done (os_result e c)
                (if os_result e c =? 0
                 then mk_world (<[nh := LockedBy (self e)]> (<[nh := Unlocked]> (<[nh := v]> (mutexes w))))
                        (threads w) (log w ++ [Call c; Suspended asleep])
                 else mk_world (<[nh := v]> (mutexes w)) (threads w) (log w ++ [Call c]))).
  { subst c. unfold sys. step ltac:(apply emit_done). step ltac:(reflexivity).
    cbn [os_effect].
    destruct (os_result e _ =? 0).
    - step ltac:(eapply cond_wait_effect_done; cbn; apply lookup_insert_eq).
      cbn. now rewrite <- app_assoc.
    - step ltac:(reflexivity). reflexivity. }
  erewrite with_local_done by (eapply ASSERT_EQ0_debug; exact Hsys).
  unfold set_mutexes, logged.
  destruct (os_result e c =? 0); cbn; fold nh;
    rewrite ?local_gone, ?delete_insert_eq, ?(delete_id _ _ (fresh_is_new w)); reflexivity.
Qed.

(* Under NDEBUG the macro drops its argument: no call is made. *)
Lemma wait_ndebug_done : cond_var.wait NDEBUG this mtx e w = Done tt w.
Proof.
  unfold cond_var.wait, mutex.native_handle.
  step ltac:(unfold load_mutex; rewrite Hmtx; reflexivity).
  erewrite with_local_done by apply ASSERT_EQ0_ndebug.
  f_equal. unfold set_mutexes; cbn. apply same_world; cbn; try done.
  rewrite delete_insert_eq. apply delete_id, fresh_is_new.
Qed.

Lemma timedwait_done b nsec :
  let c := pthread_cond_timedwait this nh (cond_var.abstime (os_clock e) nsec) in
  let r := os_result e c in
  cond_var.timedwait b this mtx nsec e w
  = Done (if r =? ETIMEDOUT then ETIMEDOUT else 0)
      (logged w (Call c :: if (r =? 0) || (r =? ETIMEDOUT)
                           then [Suspended asleep] else [])).
Proof.
  intros c r. unfold cond_var.timedwait, mutex.native_handle.
  step ltac:(reflexivity).
  step ltac:(unfold load_mutex; rewrite Hmtx; reflexivity).
  assert (Hsys : sys c e (set_mutexes (insert nh v) w)
            = Done r (if (r =? 0) || (r =? ETIMEDOUT)
                      then mk_world (<[nh := LockedBy (self e)]> (<[nh := Unlocked]> (<[nh := v]> (mutexes w))))
                             (threads w) (log w ++ [Call c; Suspended asleep])
                      else mk_world (<[nh := v]> (mutexes w)) (threads w) (log w ++ [Call c]))).
  { subst r c. unfold sys. step ltac:(apply emit_done). step ltac:(reflexivity).
    cbn [os_effect].
    destruct ((os_result e _ =? 0) || (os_result e _ =? ETIMEDOUT)).
    - step ltac:(eapply cond_wait_effect_done; cbn; apply lookup_insert_eq).
      cbn. now rewrite <- app_assoc.
    - step ltac:(reflexivity). reflexivity. }
  destruct (r =? ETIMEDOUT) eqn:Ht, (r =? 0) eqn:Hz; cbn [orb] in *;
    (erewrite with_local_done;
     [| step ltac:(exact Hsys); rewrite Ht;
        first [ reflexivity
              | step ltac:(destruct b; [now eapply ASSERT_EQ0_debug | apply ASSERT_EQ0_ndebug]);
                reflexivity ] ]);
    unfold set_mutexes, logged; cbn; fold nh;
    rewrite ?local_gone, ?delete_insert_eq, ?(delete_id _ _ (fresh_is_new w));
    reflexivity.
Qed.
End Waiting.

Section TryLocks.
Variables (b : build) (e : env) (w : world) (this : addr).

Lemma checked_retval (retval : Z) (w1 : world) :
  ASSERT_EQ0 b "retval" (mret retval) e w1 = Done tt w1.
Proof. destruct b; [now eapply ASSERT_EQ0_debug | apply ASSERT_EQ0_ndebug]. Qed.

Lemma tryrdlock_done :
  let r := os_result e (pthread_rwlock_tryrdlock this) in
  rwlock.tryrdlock b this e w
  = Done (negb (r =? EBUSY)) (logged w [Call (pthread_rwlock_tryrdlock this)]).
Proof.
  intros r. unfold rwlock.tryrdlock. step ltac:(now apply sys_done). fold r.
  destruct (r =? EBUSY); [reflexivity|].
  step ltac:(apply checked_retval). reflexivity.
Qed.

Lemma trywrlock_done :
  let r := os_result e (pthread_rwlock_trywrlock this) in
  rwlock.trywrlock b this e w
  = Done (negb (r =? EBUSY)) (logged w [Call (pthread_rwlock_trywrlock this)]).
Proof.
  intros r. unfold rwlock.trywrlock. step ltac:(now apply sys_done). fold r.
  destruct (r =? EBUSY); [reflexivity|].
  step ltac:(apply checked_retval). reflexivity.
Qed.

Lemma spin_trylock_done :
  let r := os_result e (pthread_spin_trylock this) in
  spinlock.trylock b this e w
  = Done (negb (r =? EBUSY)) (logged w [Call (pthread_spin_trylock this)]).
Proof.
  intros r. unfold spinlock.trylock. step ltac:(now apply sys_done). fold r.
  destruct (r =? EBUSY); [reflexivity|].
  step ltac:(apply checked_retval). reflexivity.
Qed.

(* A result other than zero leaves the mutex object alone. *)
Lemma mutex_trylock_failed :
  let r := os_result e (pthread_mutex_trylock this) in
  r <> 0 ->
  mutex.trylock b this e w
  = Done (negb (r =? EBUSY)) (logged w [Call (pthread_mutex_trylock this)]).
Proof.
  intros r Hr. apply Z.eqb_neq in Hr.
  unfold mutex.trylock, sys.
  step ltac:(step ltac:(apply emit_done); step ltac:(reflexivity);
             cbn [os_effect]; fold r; rewrite Hr;
             step ltac:(reflexivity); reflexivity).
  destruct (r =? EBUSY); [reflexivity|].
  step ltac:(apply checked_retval). reflexivity.
Qed.

Lemma mutex_lock_failed :
  os_result e (pthread_mutex_lock this) <> 0 ->
  mutex.lock Debug this e w = Done tt (logged w [Call (pthread_mutex_lock this)]).
Proof.
  intros Hr. apply Z.eqb_neq in Hr.
  unfold mutex.lock, sys. eapply ASSERT_EQ0_debug.
  step ltac:(apply emit_done). step ltac:(reflexivity).
  cbn [os_effect]. rewrite Hr. step ltac:(reflexivity). reflexivity.
Qed.

Lemma mutex_trylock_acquired v :
  mutexes w !! this = Some v ->
  os_result e (pthread_mutex_trylock this) = 0 ->
  mutex.trylock b this e w
  = Done true (set_mutexes (insert this (LockedBy (self e)))
                 (logged w [Call (pthread_mutex_trylock this)])).
Proof.
  intros Hv Hr. unfold mutex.trylock, sys.
  step ltac:(step ltac:(apply emit_done); step ltac:(reflexivity);
             cbn [os_effect]; rewrite Hr; cbn [Z.eqb];
             step ltac:(unfold acquire; cbn; rewrite Hv; reflexivity);
             reflexivity).
  change (0 =? EBUSY) with false. cbn iota.
  step ltac:(apply checked_retval). reflexivity.
Qed.
End TryLocks.

(* ===================================================================== *)
(* The claims                                                             *)
(* ===================================================================== *)

(** C1, refuted on the code: wait and timedwait do not hand the caller's
    mutex to the library.  mutex::native_handle returns the pthread_mutex_t
    by value, the wrapper stores that copy in the local nh and passes &nh.
    With the caller holding mtx and the library reporting success: the
    address given to pthread_cond_wait and to pthread_cond_timedwait is the
    address of nh, which is not the address of the caller's mutex; while the
    caller is suspended the copy is the object that was released and the
    caller's mutex is still held; under NDEBUG wait makes no call at all. *)
Theorem wait_hands_the_library_a_copy b e w this mtx nsec :
  mutexes w !! mtx = Some (LockedBy (self e)) ->
  (forall c, os_result e c = 0) ->
  let nh := address_of_local w in
  nh <> mtx /\
  exists asleep : gmap addr pthread_mutex_t,
    asleep !! mtx = Some (LockedBy (self e)) /\
    asleep !! nh = Some Unlocked /\
    cond_var.wait Debug this mtx e w
    = Done tt (logged w [Call (pthread_cond_wait this nh); Suspended asleep]) /\
    cond_var.wait NDEBUG this mtx e w = Done tt w /\
    cond_var.timedwait b this mtx nsec e w
    = Done 0 (logged w [Call (pthread_cond_timedwait this nh
                                (cond_var.abstime (os_clock e) nsec));
                        Suspended asleep]).
Proof.
  intros Hheld Hok nh. split; [now apply (fresh_differs w mtx _ Hheld)|].
  exists (<[nh := Unlocked]> (<[nh := LockedBy (self e)]> (mutexes w))).
  split; [now apply asleep_caller|]. split; [apply asleep_copy|].
  split; [|split].
  - rewrite (wait_debug_done e w this mtx _ Hheld). now rewrite Hok.
  - now apply (wait_ndebug_done e w this mtx _ Hheld).
  - rewrite (timedwait_done e w this mtx _ Hheld). now rewrite Hok.
Qed.

Lemma wait_hands_the_library_a_copy_witness :
  mutexes a_world !! 1%positive = Some (LockedBy (self (answering 0 a_clock))) /\
  address_of_local a_world = 2%positive /\
  exists asleep : gmap addr pthread_mutex_t,
    asleep !! 1%positive = Some (LockedBy 7) /\
    asleep !! address_of_local a_world = Some Unlocked /\
    cond_var.wait Debug 5 1 (answering 0 a_clock) a_world
    = Done tt (logged a_world [Call (pthread_cond_wait 5 (address_of_local a_world));
                               Suspended asleep]) /\
    cond_var.wait NDEBUG 5 1 (answering 0 a_clock) a_world = Done tt a_world /\
    cond_var.timedwait Debug 5 1 2 (answering 0 a_clock) a_world
    = Done 0 (logged a_world [Call (pthread_cond_timedwait 5 (address_of_local a_world)
                                      (cond_var.abstime a_clock 2));
                              Suspended asleep]).
Proof.
  split; [reflexivity|]. split; [vm_compute; reflexivity|].
  apply (wait_hands_the_library_a_copy Debug (answering 0 a_clock) a_world 5 1 2);
    [reflexivity | intros c; reflexivity].
Defined.

(** C2, refuted on the code: in a build without NDEBUG a result other than
    zero does not abort.  ASSERT_EQ0 calls assert on the string literal
    #X " != 0", which converts to true, so the assert passes: for every
    value x of the checked expression the macro returns normally, and
    mutex::lock returns normally when pthread_mutex_lock answers EINVAL. *)
Theorem ASSERT_EQ0_debug_never_aborts text (x : Z) e w now this :
  ASSERT_EQ0 Debug text (mret x) e w = Done tt w /\
  mutex.lock Debug this (answering EINVAL now) w
  = Done tt (logged w [Call (pthread_mutex_lock this)]).
Proof.
  split.
  - now eapply ASSERT_EQ0_debug.
  - now apply mutex_lock_failed.
Qed.

(** C4, refuted on the code: a result of the try-lock call that is neither
    zero nor EBUSY is not a fatal fault.  When the library answers EINVAL,
    mutex::trylock, rwlock::tryrdlock, rwlock::trywrlock and
    spinlock::trylock all return true, in either build. *)
Theorem trylock_returns_true_on_other_errors b now w this :
  let e := answering EINVAL now in
  mutex.trylock b this e w = Done true (logged w [Call (pthread_mutex_trylock this)]) /\
  rwlock.tryrdlock b this e w = Done true (logged w [Call (pthread_rwlock_tryrdlock this)]) /\
  rwlock.trywrlock b this e w = Done true (logged w [Call (pthread_rwlock_trywrlock this)]) /\
  spinlock.trylock b this e w = Done true (logged w [Call (pthread_spin_trylock this)]).
Proof.
  intros e. repeat split.
  - now rewrite mutex_trylock_failed.
  - now rewrite tryrdlock_done.
  - now rewrite trywrlock_done.
  - now rewrite spin_trylock_done.
Qed.

(** C5, refuted on the code: a result of pthread_cond_timedwait that is
    neither zero nor ETIMEDOUT is not a fatal fault.  When the library
    answers EINVAL, timedwait returns 0, the value it returns for a wait that
    was signalled, in either build and without the caller having slept. *)
Theorem timedwait_returns_zero_on_other_errors b now w this mtx nsec v :
  mutexes w !! mtx = Some v ->
  cond_var.timedwait b this mtx nsec (answering EINVAL now) w
  = Done 0 (logged w [Call (pthread_cond_timedwait this (address_of_local w)
                              (cond_var.abstime now nsec))]).
Proof.
  intros Hv. now rewrite (timedwait_done _ w this mtx v Hv).
Qed.

Lemma timedwait_returns_zero_on_other_errors_witness :
  mutexes a_world !! 1%positive = Some (LockedBy 7) /\
  cond_var.timedwait Debug 5 1 2 (answering EINVAL a_clock) a_world
  = Done 0 (logged a_world [Call (pthread_cond_timedwait 5 (address_of_local a_world)
                                    (cond_var.abstime a_clock 2))]).
Proof.
  split; [reflexivity|].
  apply (timedwait_returns_zero_on_other_errors Debug a_clock a_world 5 1 2 (LockedBy 7)).
  reflexivity.
Defined.

(** C3: for a nonnegative duration nsec, a clock reading whose nanosecond
    field is below one second, and a deadline whose seconds fit time_t,
    timedwait computes the deadline as the clock reading plus nsec, with the
    nanosecond field normalized: the nanosecond field of the result lies in
    [0, NS_PER_SEC) and seconds * NS_PER_SEC + nanoseconds equals the clock
    reading in nanoseconds plus nsec; this deadline is the one handed to
    pthread_cond_timedwait. *)
Theorem timedwait_deadline_is_clock_plus_duration b e w this mtx v nsec :
  0 <= nsec <= LONG_MAX ->
  0 <= tv_nsec (os_clock e) < cond_var.NS_PER_SEC ->
  in_long (tv_sec (os_clock e)) ->
  tv_sec (os_clock e) + (tv_nsec (os_clock e) + nsec) / cond_var.NS_PER_SEC <= LONG_MAX ->
  mutexes w !! mtx = Some v ->
  let now := os_clock e in
  let d := cond_var.abstime now nsec in
  0 <= tv_nsec d < cond_var.NS_PER_SEC /\
  tv_sec d * cond_var.NS_PER_SEC + tv_nsec d
  = tv_sec now * cond_var.NS_PER_SEC + tv_nsec now + nsec /\
  exists r w' evs,
    cond_var.timedwait b this mtx nsec e w = Done r w' /\
    log w' = log w ++ Call (pthread_cond_timedwait this (address_of_local w) d) :: evs.
Proof.
  intros Hnsec Hclock Hsec Hfit Hv now d.
  assert (Hd : d = mk_timespec (tv_sec now + (tv_nsec now + nsec) / cond_var.NS_PER_SEC)
                               ((tv_nsec now + nsec) mod cond_var.NS_PER_SEC)).
  { apply abstime_nonneg; try done; unfold in_long, LONG_MIN, LONG_MAX in *; lia. }
  split; [|split].
  - rewrite Hd; cbn. apply Z.mod_pos_bound. unfold cond_var.NS_PER_SEC. lia.
  - rewrite Hd; cbn.
    pose proof (Z.div_mod (tv_nsec now + nsec) cond_var.NS_PER_SEC) as Hdm.
    unfold cond_var.NS_PER_SEC in *. lia.
  - rewrite (timedwait_done e w this mtx v Hv). eexists _, _, _. split; [reflexivity|].
    reflexivity.
Qed.

Lemma timedwait_deadline_is_clock_plus_duration_witness :
  0 <= 2 <= LONG_MAX /\
  cond_var.abstime a_clock 2 = mk_timespec 101 1 /\
  0 <= tv_nsec (cond_var.abstime a_clock 2) < cond_var.NS_PER_SEC /\
  tv_sec (cond_var.abstime a_clock 2) * cond_var.NS_PER_SEC
    + tv_nsec (cond_var.abstime a_clock 2)
  = tv_sec a_clock * cond_var.NS_PER_SEC + tv_nsec a_clock + 2 /\
  exists r w' evs,
    cond_var.timedwait Debug 5 1 2 (answering ETIMEDOUT a_clock) a_world = Done r w' /\
    log w' = log a_world
             ++ Call (pthread_cond_timedwait 5 (address_of_local a_world)
                        (cond_var.abstime a_clock 2)) :: evs.
Proof.
  split; [unfold LONG_MAX; lia|]. split; [reflexivity|].
  apply (timedwait_deadline_is_clock_plus_duration Debug (answering ETIMEDOUT a_clock)
           a_world 5 1 (LockedBy 7) 2).
  - unfold LONG_MAX; lia.
  - simpl; unfold cond_var.NS_PER_SEC; lia.
  - simpl; unfold in_long, LONG_MIN, LONG_MAX; lia.
  - vm_compute; discriminate.
  - reflexivity.
Defined.

(* The example of the specification: .999999999 plus 2 ns. *)
Example carry_into_seconds (s : Z) :
  0 <= s < 2 ^ 62 ->
  cond_var.abstime (mk_timespec s 999999999) 2 = mk_timespec (s + 1) 1.
Proof.
  intros Hs. rewrite abstime_nonneg; cbn [tv_sec tv_nsec];
    unfold in_long, LONG_MIN, LONG_MAX, cond_var.NS_PER_SEC; try lia.
  - reflexivity.
  - change ((999999999 + 2) / 1000000000) with 1. lia.
Qed.

(** C10: for a negative duration nsec, when the clock's nanosecond field
    plus the remainder of nsec is below zero, the deadline timedwait
    computes keeps that negative value as its nanosecond field (the carry
    branch is not taken), its seconds field is the clock's seconds plus the
    non-positive quotient of nsec, and this deadline is handed to
    pthread_cond_timedwait as it is. *)
Theorem timedwait_negative_duration_unnormalized b e w this mtx v nsec :
  LONG_MIN <= nsec < 0 ->
  0 <= tv_nsec (os_clock e) < cond_var.NS_PER_SEC ->
  in_long (tv_sec (os_clock e)) ->
  LONG_MIN <= tv_sec (os_clock e) + Z.quot nsec cond_var.NS_PER_SEC ->
  tv_nsec (os_clock e) + Z.rem nsec cond_var.NS_PER_SEC < 0 ->
  mutexes w !! mtx = Some v ->
  let now := os_clock e in
  let d := cond_var.abstime now nsec in
  tv_nsec d = tv_nsec now + Z.rem nsec cond_var.NS_PER_SEC /\
  tv_nsec d < 0 /\
  tv_sec d = tv_sec now + Z.quot nsec cond_var.NS_PER_SEC /\
  tv_sec d <= tv_sec now /\
  exists r w' evs,
    cond_var.timedwait b this mtx nsec e w = Done r w' /\
    log w' = log w ++ Call (pthread_cond_timedwait this (address_of_local w) d) :: evs.
Proof.
  intros Hnsec Hclock Hsec Hfit Hneg Hv now d.
  assert (Hd : d = mk_timespec (tv_sec now + Z.quot nsec cond_var.NS_PER_SEC)
                               (tv_nsec now + Z.rem nsec cond_var.NS_PER_SEC)).
  { apply abstime_negative; try done; unfold in_long, LONG_MIN, LONG_MAX in *; lia. }
  assert (Hq : Z.quot nsec cond_var.NS_PER_SEC <= 0).
  { pose proof (Z.mul_quot_ge nsec cond_var.NS_PER_SEC) as H.
    unfold cond_var.NS_PER_SEC in *. lia. }
  rewrite Hd; cbn [tv_sec tv_nsec]. repeat split; try done; try lia.
  rewrite (timedwait_done e w this mtx v Hv). eexists _, _, _. split; [reflexivity|].
  fold now. fold d. now rewrite Hd.
Qed.

Lemma timedwait_negative_duration_unnormalized_witness :
  cond_var.abstime (mk_timespec 100 100) (-1500000000) = mk_timespec 99 (-499999900) /\
  tv_nsec (cond_var.abstime (mk_timespec 100 100) (-1500000000))
  = 100 + Z.rem (-1500000000) cond_var.NS_PER_SEC /\
  tv_nsec (cond_var.abstime (mk_timespec 100 100) (-1500000000)) < 0 /\
  tv_sec (cond_var.abstime (mk_timespec 100 100) (-1500000000))
  = 100 + Z.quot (-1500000000) cond_var.NS_PER_SEC /\
  tv_sec (cond_var.abstime (mk_timespec 100 100) (-1500000000)) <= 100 /\
  exists r w' evs,
    cond_var.timedwait Debug 5 1 (-1500000000)
      (answering ETIMEDOUT (mk_timespec 100 100)) a_world = Done r w' /\
    log w' = log a_world
             ++ Call (pthread_cond_timedwait 5 (address_of_local a_world)
                        (cond_var.abstime (mk_timespec 100 100) (-1500000000))) :: evs.
Proof.
  split; [reflexivity|].
  apply (timedwait_negative_duration_unnormalized Debug
           (answering ETIMEDOUT (mk_timespec 100 100)) a_world 5 1 (LockedBy 7)
           (-1500000000)).
  - unfold LONG_MIN; lia.
  - simpl; unfold cond_var.NS_PER_SEC; lia.
  - simpl; unfold in_long, LONG_MIN, LONG_MAX; lia.
  - vm_compute; discriminate.
  - vm_compute; reflexivity.
  - reflexivity.
Defined.

(** C6, counterexample: move-assigning a thread to itself does not reset it.
    The wrapper at address 1 owns the joinable thread 42; after
    t = std::move(t) it still holds handle 42 and is still joinable, and its
    destructor joins. *)
Lemma self_move_assign_is_not_reset :
  exists w',
    thread.move_assign 1 1 (answering 0 a_clock) a_world = Done 1%positive w' /\
    threads w' !! 1%positive = Some (mk_thread 42 true) /\
    threads w' !! 1%positive <> Some (mk_thread 0 false) /\
    thread.joinable 1 (answering 0 a_clock) w' = Done true w' /\
    exists w'',
      thread.dtor Debug 1 (answering 0 a_clock) w' = Done tt w'' /\
      log w'' = log w' ++ [Call (pthread_join 42 None)].
Proof.
  exists a_world. split; [now apply (move_assign_self _ a_world 1 (mk_thread 42 true))|].
  split; [reflexivity|]. split; [vm_compute; discriminate|].
  split; [reflexivity|].
  eexists. split; [now apply (dtor_joinable _ a_world 1 (mk_thread 42 true))|]. reflexivity.
Qed.

(** C6, amended: move construction, and move assignment from a source that
    is a different object from the destination, transfer the native handle
    and the joinable flag from the source to the destination and reset the
    source to the no-thread state (handle 0, joinable false), so that the
    destructor of the moved-from instance makes no call (it does not join);
    a thread move-assigned to itself is left as it was. *)
Theorem move_resets_a_distinct_source b e w this other s :
  threads w !! other = Some s ->
  this <> other ->
  (threads w !! this = None ->
   exists w1,
     thread.move_ctor this other e w = Done tt w1 /\
     transferred b e w w1 this other s) /\
  (is_Some (threads w !! this) ->
   exists w1,
     thread.move_assign this other e w = Done this w1 /\
     transferred b e w w1 this other s) /\
  thread.move_assign other other e w = Done other w.
Proof.
  intros Hs Hne.
  set (w1 := set_threads (fun m => <[this := s]> (<[other := mk_thread 0 false]> m)) w).
  assert (Ho : threads w1 !! other = Some (mk_thread 0 false))
    by (cbn; rewrite lookup_insert_ne by done; apply lookup_insert_eq).
  assert (Hpost : transferred b e w w1 this other s).
  { split; [apply lookup_insert_eq|].
    split; [exact Ho|]. split; [reflexivity|].
    eexists. split; [apply (dtor_not_joinable e w1 other _ Ho b eq_refl)|].
    cbn. split; [reflexivity|].
    rewrite lookup_delete_ne by done. apply lookup_insert_eq. }
  split; [|split].
  - intros Hnew. eexists. split; [apply (move_ctor_done e w this other s Hs Hnew)|]. exact Hpost.
  - intros [d Hd]. eexists. split; [apply (move_assign_distinct e w this other s Hs d Hd Hne)|].
    exact Hpost.
  - apply (move_assign_self e w other s Hs).
Qed.

Lemma move_resets_a_distinct_source_witness :
  threads a_world !! 2%positive = Some (mk_thread 43 true) /\
  3%positive <> 2%positive /\
  (threads a_world !! 3%positive = None ->
   exists w1,
     thread.move_ctor 3 2 (answering 0 a_clock) a_world = Done tt w1 /\
     transferred Debug (answering 0 a_clock) a_world w1 3 2 (mk_thread 43 true)) /\
  (is_Some (threads a_world !! 3%positive) ->
   exists w1,
     thread.move_assign 3 2 (answering 0 a_clock) a_world = Done 3%positive w1 /\
     transferred Debug (answering 0 a_clock) a_world w1 3 2 (mk_thread 43 true)) /\
  thread.move_assign 2 2 (answering 0 a_clock) a_world = Done 2%positive a_world.
Proof.
  split; [reflexivity|]. split; [discriminate|].
  apply (move_resets_a_distinct_source Debug (answering 0 a_clock) a_world 3 2
           (mk_thread 43 true)); [reflexivity | discriminate].
Defined.

(** C7: join() on a thread object whose joinable() is false is a
    no-operation: it returns normally and leaves the whole state as it was,
    so no pthread_join call is made, the caller is not suspended, nothing
    aborts, and the handle and the joinable flag are unchanged. *)
Theorem join_on_non_joinable_is_noop b e w this retval :
  thread.joinable this e w = Done false w ->
  thread.join b this retval e w = Done tt w.
Proof.
  intros Hj. destruct (threads w !! this) as [t|] eqn:Ht.
  - rewrite (joinable_done e w this t Ht) in Hj. injection Hj as Hf.
    now apply (join_skipped e w this t Ht).
  - unfold thread.joinable, read_thread, mbind, M_bind, bind in Hj.
    rewrite Ht in Hj. discriminate.
Qed.

Lemma join_on_non_joinable_is_noop_witness :
  thread.joinable 3 (answering 0 a_clock) a_world = Done false a_world /\
  thread.join Debug 3 None (answering 0 a_clock) a_world = Done tt a_world.
Proof.
  split; [reflexivity|].
  apply (join_on_non_joinable_is_noop Debug (answering 0 a_clock) a_world 3 None).
  reflexivity.
Defined.

(** C8: detach() does not update the joinable flag: after it returns,
    joinable() reports the value it had before the call and the handle is
    unchanged; so, for a joinable thread, detach() followed by the
    destructor calls pthread_detach and then still pthread_join on the same
    handle (in a build where the calls inside ASSERT_EQ0 are made). *)
Theorem detach_keeps_joinable_flag b e w this t :
  threads w !! this = Some t ->
  thread.joinable this e w = Done (_joinable t) w /\
  exists w',
    thread.detach b this e w = Done tt w' /\
    thread.joinable this e w' = Done (_joinable t) w' /\
    threads w' = threads w /\
    (_joinable t = true ->
     exists w1 w2,
       thread.detach Debug this e w = Done tt w1 /\
       thread.dtor Debug this e w1 = Done tt w2 /\
       log w2 = log w ++ [Call (pthread_detach (_handle t));
                          Call (pthread_join (_handle t) None)]).
Proof.
  intros Ht. split; [apply (joinable_done e w this t Ht)|].
  eexists. split; [apply (detach_done e w this t Ht)|].
  split; [now apply joinable_done|]. split; [reflexivity|].
  intros Hj. eexists _, _. split; [apply (detach_done e w this t Ht)|].
  split; [now apply (dtor_joinable e _ this t)|].
  cbn. now rewrite <- app_assoc.
Qed.

Lemma detach_keeps_joinable_flag_witness :
  threads a_world !! 1%positive = Some (mk_thread 42 true) /\
  thread.joinable 1 (answering 0 a_clock) a_world = Done true a_world /\
  exists w',
    thread.detach Debug 1 (answering 0 a_clock) a_world = Done tt w' /\
    thread.joinable 1 (answering 0 a_clock) w' = Done true w' /\
    threads w' = threads a_world /\
    (true = true ->
     exists w1 w2,
       thread.detach Debug 1 (answering 0 a_clock) a_world = Done tt w1 /\
       thread.dtor Debug 1 (answering 0 a_clock) w1 = Done tt w2 /\
       log w2 = log a_world ++ [Call (pthread_detach 42); Call (pthread_join 42 None)]).
Proof.
  split; [reflexivity|].
  apply (detach_keeps_joinable_flag Debug (answering 0 a_clock) a_world 1 (mk_thread 42 true)).
  reflexivity.
Defined.

(** C9, counterexample: move-assigning a thread onto itself abandons
    nothing.  The wrapper at address 2 owns the joinable thread 43; after
    t = std::move(t) it is still joinable with handle 43, so it still answers
    for the thread it owned, and its destructor joins it. *)
Lemma self_move_assign_keeps_join_responsibility :
  threads a_world !! 2%positive = Some (mk_thread 43 true) /\
  exists w',
    thread.move_assign 2 2 (answering 0 a_clock) a_world = Done 2%positive w' /\
    thread.joinable 2 (answering 0 a_clock) w' = Done true w' /\
    thread.native_handle 2 (answering 0 a_clock) w' = Done 43 w' /\
    exists w'',
      thread.dtor Debug 2 (answering 0 a_clock) w' = Done tt w'' /\
      log w'' = log w' ++ [Call (pthread_join 43 None)].
Proof.
  split; [reflexivity|]. exists a_world.
  split; [apply (move_assign_self _ a_world 2 (mk_thread 43 true)); reflexivity|].
  split; [reflexivity|]. split; [reflexivity|].
  eexists. split; [now apply (dtor_joinable _ a_world 2 (mk_thread 43 true))|].
  reflexivity.
Qed.

(** C9, amended: move-assigning onto a destination that owns a joinable
    thread overwrites the destination's handle and joinable flag with the
    source's values and makes no library call, so the thread the destination
    owned is neither joined nor detached.  Unless the source is itself
    joinable with that same handle, join responsibility for the thread is
    abandoned: afterwards no thread object answers for it other than objects
    that already did, and neither the destination nor the source does.  When
    the destination is move-assigned onto itself nothing changes: it keeps
    the thread. *)
Theorem move_assign_abandons_joinable_destination e w this other hd s :
  threads w !! this = Some (mk_thread hd true) ->
  threads w !! other = Some s ->
  exists w',
    thread.move_assign this other e w = Done this w' /\
    threads w' !! this = Some s /\
    log w' = log w /\
    mutexes w' = mutexes w /\
    (s <> mk_thread hd true ->
     forall a t, threads w' !! a = Some t -> _handle t = hd -> _joinable t = true ->
       a <> this /\ a <> other /\ threads w !! a = Some t) /\
    (this = other -> w' = w).
Proof.
  intros Hd Hs. destruct (decide (this = other)) as [->|Hne].
  - exists w. split; [apply (move_assign_self e w other s Hs)|].
    split; [done|]. split; [done|]. split; [done|]. split; [|done].
    intros Hdiff. rewrite Hd in Hs. injection Hs as <-. contradiction.
  - eexists. split; [apply (move_assign_distinct e w this other s Hs _ Hd Hne)|].
    cbn. split; [apply lookup_insert_eq|]. split; [reflexivity|].
    split; [reflexivity|]. split; [|contradiction].
    intros Hdiff a t Ha Hth Htj.
    rewrite !lookup_insert in Ha. repeat case_decide; simplify_eq; try done.
    exfalso. apply Hdiff. destruct t; cbn in *; congruence.
Qed.

Lemma move_assign_abandons_joinable_destination_witness :
  threads a_world !! 1%positive = Some (mk_thread 42 true) /\
  threads a_world !! 2%positive = Some (mk_thread 43 true) /\
  exists w',
    thread.move_assign 1 2 (answering 0 a_clock) a_world = Done 1%positive w' /\
    threads w' !! 1%positive = Some (mk_thread 43 true) /\
    log w' = log a_world /\
    mutexes w' = mutexes a_world /\
    (mk_thread 43 true <> mk_thread 42 true ->
     forall a t, threads w' !! a = Some t -> _handle t = 42 -> _joinable t = true ->
       a <> 1%positive /\ a <> 2%positive /\ threads a_world !! a = Some t) /\
    (1%positive = 2%positive -> w' = a_world).
Proof.
  split; [reflexivity|]. split; [reflexivity|].
  apply (move_assign_abandons_joinable_destination (answering 0 a_clock) a_world 1 2 42
           (mk_thread 43 true)); reflexivity.
Defined.

(* ===================================================================== *)
(* Further properties: class thread                                       *)
(* ===================================================================== *)

Lemma when_checked_join b (t : thread_obj) retval :
  match b with
  | Debug => [Call (pthread_join (_handle t) retval)]
  | NDEBUG => []
  end = when_checked b [Call (pthread_join (_handle t) retval)].
Proof. now destruct b. Qed.

(** X1: join() on a joinable thread calls pthread_join once, with the owned
    handle and the caller's retval pointer passed on as it is, when the call
    is compiled in, and none under NDEBUG; whatever the library answers it
    returns normally, clears the joinable flag and keeps the handle.  Of the
    wrapper objects, every other thread object and every mutex object is as
    it was.  (Where the exit value goes is the library's business: it stores
    it through retval, which is no wrapper object and is not said to be
    unchanged.) *)
Theorem join_joins_once_and_clears_the_flag b e w this retval t :
  threads w !! this = Some t ->
  _joinable t = true ->
  exists w',
    thread.join b this retval e w = Done tt w' /\
    thread.joinable this e w' = Done false w' /\
    thread.native_handle this e w' = Done (_handle t) w' /\
    log w' = log w ++ when_checked b [Call (pthread_join (_handle t) retval)] /\
    mutexes w' = mutexes w /\
    forall a, a <> this -> threads w' !! a = threads w !! a.
Proof.
  intros Ht Hj. eexists. split; [apply (join_done e w this t Ht b retval Hj)|].
  set (w' := mk_world _ _ _).
  assert (Hnew : threads w' !! this = Some (mk_thread (_handle t) false))
    by apply lookup_insert_eq.
  split; [apply (joinable_done e w' this _ Hnew)|].
  split; [apply (read_handle_done e w' this _ Hnew)|].
  cbn. split; [apply f_equal, when_checked_join|]. split; [reflexivity|].
  intros a Ha. now rewrite lookup_insert_ne.
Qed.

Lemma join_joins_once_and_clears_the_flag_witness :
  threads a_world !! 1%positive = Some (mk_thread 42 true) /\
  exists w',
    thread.join Debug 1 None (answering EINVAL a_clock) a_world = Done tt w' /\
    thread.joinable 1 (answering EINVAL a_clock) w' = Done false w' /\
    thread.native_handle 1 (answering EINVAL a_clock) w' = Done 42 w' /\
    log w' = log a_world ++ when_checked Debug [Call (pthread_join 42 None)] /\
    mutexes w' = mutexes a_world /\
    forall a, a <> 1%positive -> threads w' !! a = threads a_world !! a.
Proof.
  split; [reflexivity|].
  apply (join_joins_once_and_clears_the_flag Debug (answering EINVAL a_clock) a_world 1
           None (mk_thread 42 true)); reflexivity.
Defined.

(** X2: join() is idempotent: on a live thread object, joining twice is the
    same as joining once; the second join makes no call and changes nothing,
    and its retval pointer is never used. *)
Theorem join_twice_is_join_once b e w this retval retval' t :
  threads w !! this = Some t ->
  (thread.join b this retval;; thread.join b this retval') e w
  = thread.join b this retval e w.
Proof.
  intros Ht. destruct (_joinable t) eqn:Hj.
  - rewrite (bind_done _ _ _ _ _ _ (join_done e w this t Ht b retval Hj)).
    rewrite (join_done e w this t Ht b retval Hj).
    eapply join_skipped; [apply lookup_insert_eq | reflexivity].
  - rewrite (bind_done _ _ _ _ _ _ (join_skipped e w this t Ht b retval Hj)).
    rewrite (join_skipped e w this t Ht b retval Hj).
    now apply (join_skipped e w this t Ht).
Qed.

Lemma join_twice_is_join_once_witness :
  threads a_world !! 1%positive = Some (mk_thread 42 true) /\
  (thread.join Debug 1 None;; thread.join Debug 1 (Some 9%positive))
    (answering 0 a_clock) a_world
  = thread.join Debug 1 None (answering 0 a_clock) a_world.
Proof.
  split; [reflexivity|].
  apply (join_twice_is_join_once Debug (answering 0 a_clock) a_world 1 None
           (Some 9%positive) (mk_thread 42 true)).
  reflexivity.
Defined.

(** X3: a joinable thread is joined exactly once over the life of its
    wrapper, whether or not the user joins: the destructor alone calls
    pthread_join on the owned handle, and after an explicit join() the
    destructor makes no further call; either way the object is gone and
    the other objects are untouched. *)
Theorem joinable_thread_is_joined_exactly_once b e w this retval t :
  threads w !! this = Some t ->
  _joinable t = true ->
  thread.dtor b this e w
  = Done tt (mk_world (mutexes w) (delete this (threads w))
               (log w ++ when_checked b [Call (pthread_join (_handle t) None)])) /\
  (thread.join b this retval;; thread.dtor b this) e w
  = Done tt (mk_world (mutexes w) (delete this (threads w))
               (log w ++ when_checked b [Call (pthread_join (_handle t) retval)])).
Proof.
  intros Ht Hj. split.
  - rewrite (dtor_joinable e w this t Ht b Hj). now rewrite when_checked_join.
  - rewrite (bind_done _ _ _ _ _ _ (join_done e w this t Ht b retval Hj)).
    erewrite dtor_not_joinable; [|apply lookup_insert_eq|reflexivity].
    unfold set_threads; cbn. now rewrite delete_insert_eq, when_checked_join.
Qed.

Lemma joinable_thread_is_joined_exactly_once_witness :
  threads a_world !! 2%positive = Some (mk_thread 43 true) /\
  thread.dtor Debug 2 (answering 0 a_clock) a_world
  = Done tt (mk_world (mutexes a_world) (delete 2%positive (threads a_world))
               (log a_world ++ when_checked Debug [Call (pthread_join 43 None)])) /\
  (thread.join Debug 2 (Some 9%positive);; thread.dtor Debug 2) (answering 0 a_clock) a_world
  = Done tt (mk_world (mutexes a_world) (delete 2%positive (threads a_world))
               (log a_world ++ when_checked Debug [Call (pthread_join 43 (Some 9%positive))])).
Proof.
  split; [reflexivity|].
  apply (joinable_thread_is_joined_exactly_once Debug (answering 0 a_clock) a_world 2
           (Some 9%positive) (mk_thread 43 true)); reflexivity.
Defined.

(** X4: a default-constructed thread is the no-thread state: it is not
    joinable, its handle is 0, join() on it does nothing, and constructing it
    in free storage and destroying it again makes no library call and leaves
    the state exactly as it was. *)
Theorem default_thread_owns_nothing b e w this retval :
  threads w !! this = None ->
  exists w1,
    thread.default_ctor this e w = Done tt w1 /\
    thread.joinable this e w1 = Done false w1 /\
    thread.native_handle this e w1 = Done 0 w1 /\
    thread.join b this retval e w1 = Done tt w1 /\
    thread.dtor b this e w1 = Done tt w.
Proof.
  intros Hfree.
  set (w1 := set_threads (insert this (mk_thread 0 false)) w).
  assert (Hlive : threads w1 !! this = Some (mk_thread 0 false)) by apply lookup_insert_eq.
  exists w1. split.
  { unfold thread.default_ctor, thread.construct. now rewrite Hfree. }
  split; [apply (joinable_done e w1 this _ Hlive)|].
  split; [apply (read_handle_done e w1 this _ Hlive)|].
  split; [now apply (join_skipped e w1 this _ Hlive)|].
  rewrite (dtor_not_joinable e w1 this _ Hlive b eq_refl).
  f_equal. apply same_world; cbn; try done.
  rewrite delete_insert_eq. now apply delete_id.
Qed.

Lemma default_thread_owns_nothing_witness :
  threads a_world !! 4%positive = None /\
  exists w1,
    thread.default_ctor 4 (answering 0 a_clock) a_world = Done tt w1 /\
    thread.joinable 4 (answering 0 a_clock) w1 = Done false w1 /\
    thread.native_handle 4 (answering 0 a_clock) w1 = Done 0 w1 /\
    thread.join Debug 4 None (answering 0 a_clock) w1 = Done tt w1 /\
    thread.dtor Debug 4 (answering 0 a_clock) w1 = Done tt a_world.
Proof.
  split; [reflexivity|].
  apply (default_thread_owns_nothing Debug (answering 0 a_clock) a_world 4 None).
  reflexivity.
Defined.



(** X6: exchanging two threads by three moves through a temporary, as
    std::swap does with this class (move construction of tmp from a, a = b,
    b = tmp, destruction of tmp), swaps what the two wrappers own, makes no
    library call, and loses no thread. *)
Theorem three_moves_swap_two_threads b e w x y tmp tx ty :
  threads w !! x = Some tx ->
  threads w !! y = Some ty ->
  x <> y ->
  threads w !! tmp = None ->
  (thread.move_ctor tmp x;; thread.move_assign x y;; thread.move_assign y tmp;;
   thread.dtor b tmp) e w
  = Done tt (set_threads (fun m => <[x := ty]> (<[y := tx]> m)) w).
Proof.
  intros Hx Hy Hne Hfree.
  assert (tmp <> x) by congruence. assert (tmp <> y) by congruence.
  rewrite (bind_done _ _ _ _ _ _ (move_ctor_done e w tmp x tx Hx Hfree)).
  set (w1 := set_threads _ w).
  assert (H1x : threads w1 !! x = Some (mk_thread 0 false))
    by (cbn; rewrite lookup_insert_ne by done; apply lookup_insert_eq).
  assert (H1y : threads w1 !! y = Some ty)
    by (cbn; rewrite !lookup_insert_ne by done; exact Hy).
  rewrite (bind_done _ _ _ _ _ _ (move_assign_distinct e w1 x y ty H1y _ H1x Hne)).
  set (w2 := set_threads _ w1).
  assert (H2y : threads w2 !! y = Some (mk_thread 0 false))
    by (cbn; rewrite lookup_insert_ne by done; apply lookup_insert_eq).
  assert (H2t : threads w2 !! tmp = Some tx)
    by (cbn; rewrite !lookup_insert_ne by done; apply lookup_insert_eq).
  rewrite (bind_done _ _ _ _ _ _
             (move_assign_distinct e w2 y tmp tx H2t _ H2y ltac:(congruence))).
  set (w3 := set_threads _ w2).
  assert (H3t : threads w3 !! tmp = Some (mk_thread 0 false))
    by (cbn; rewrite lookup_insert_ne by done; apply lookup_insert_eq).
  rewrite (dtor_not_joinable e w3 tmp _ H3t b eq_refl).
  unfold set_threads; cbn. do 2 f_equal.
  apply map_eq; intros i.
  repeat (rewrite lookup_insert || rewrite lookup_delete).
  repeat case_decide; simplify_eq; done.
Qed.

Lemma three_moves_swap_two_threads_witness :
  threads a_world !! 1%positive = Some (mk_thread 42 true) /\
  threads a_world !! 3%positive = Some (mk_thread 0 false) /\
  1%positive <> 3%positive /\
  threads a_world !! 4%positive = None /\
  (thread.move_ctor 4 1;; thread.move_assign 1 3;; thread.move_assign 3 4;;
   thread.dtor Debug 4) (answering 0 a_clock) a_world
  = Done tt (set_threads (fun m => <[1%positive := mk_thread 0 false]>
                                    (<[3%positive := mk_thread 42 true]> m)) a_world).
Proof.
  split; [reflexivity|]. split; [reflexivity|]. split; [discriminate|].
  split; [reflexivity|].
  apply (three_moves_swap_two_threads Debug (answering 0 a_clock) a_world 1 3 4
           (mk_thread 42 true) (mk_thread 0 false));
    [reflexivity | reflexivity | discriminate | reflexivity].
Defined.

Section Ownership.
Variable ts : gmap addr thread_obj.
Hypothesis Huniq : unique_owners ts.

Lemma unique_owners_insert_idle a t :
  _joinable t = false -> unique_owners (<[a := t]> ts).
Proof.
  intros Hidle a1 a2 t1 t2 H1 H2 J1 J2 Hh.
  rewrite lookup_insert in H1, H2.
  repeat case_decide; simplify_eq; try congruence.
  now apply (Huniq a1 a2 t1 t2).
Qed.

Lemma unique_owners_delete a : unique_owners (delete a ts).
Proof.
  intros a1 a2 t1 t2 H1 H2 J1 J2 Hh.
  rewrite lookup_delete in H1, H2.
  repeat case_decide; simplify_eq.
  now apply (Huniq a1 a2 t1 t2).
Qed.

(* What both moves leave: the source idle, the destination with what the
   source had. *)
Lemma unique_owners_moved this other s :
  ts !! other = Some s ->
  unique_owners (<[this := s]> (<[other := mk_thread 0 false]> ts)).
Proof.
  intros Hs a1 a2 t1 t2 H1 H2 J1 J2 Hh.
  rewrite !lookup_insert in H1, H2.
  repeat case_decide; simplify_eq; try done;
    try solve [eapply Huniq; eauto];
    exfalso;
    match goal with
    | N : ?x <> ?y |- _ =>
        apply N; solve [eapply Huniq; eauto | symmetry; eapply Huniq; eauto]
    end.
Qed.
End Ownership.

(** X7: the wrapper operations keep ownership unique.  If no two live thread
    objects are joinable with the same handle, this still holds after a move
    assignment (also onto itself), a move construction, a join, a detach, a
    default construction and a destruction: a move never leaves two wrappers
    answering for one thread. *)
Theorem ownership_stays_unique b e w this other slot retval d s :
  unique_owners (threads w) ->
  threads w !! this = Some d ->
  threads w !! other = Some s ->
  threads w !! slot = None ->
  (exists w', thread.move_assign this other e w = Done this w' /\
              unique_owners (threads w')) /\
  (exists w', thread.move_ctor slot other e w = Done tt w' /\
              unique_owners (threads w')) /\
  (exists w', thread.join b this retval e w = Done tt w' /\
              unique_owners (threads w')) /\
  (exists w', thread.detach b this e w = Done tt w' /\
              unique_owners (threads w')) /\
  (exists w', thread.default_ctor slot e w = Done tt w' /\
              unique_owners (threads w')) /\
  (exists w', thread.dtor b this e w = Done tt w' /\
              unique_owners (threads w')).
Proof.
  intros Huniq Hd Hs Hfree. repeat split.
  - destruct (decide (this = other)) as [->|Hne].
    + exists w. split; [apply (move_assign_self e w other s Hs) | exact Huniq].
    + eexists. split; [apply (move_assign_distinct e w this other s Hs d Hd Hne)|].
      now apply unique_owners_moved.
  - eexists. split; [apply (move_ctor_done e w slot other s Hs Hfree)|].
    now apply unique_owners_moved.
  - destruct (_joinable d) eqn:Hj.
    + eexists. split; [apply (join_done e w this d Hd b retval Hj)|].
      now apply unique_owners_insert_idle.
    + exists w. split; [apply (join_skipped e w this d Hd b retval Hj) | exact Huniq].
  - eexists. split; [apply (detach_done e w this d Hd b) | exact Huniq].
  - eexists. split.
    + unfold thread.default_ctor, thread.construct. rewrite Hfree. reflexivity.
    + now apply unique_owners_insert_idle.
  - destruct (_joinable d) eqn:Hj.
    + eexists. split; [apply (dtor_joinable e w this d Hd b Hj)|].
      now apply unique_owners_delete.
    + eexists. split; [apply (dtor_not_joinable e w this d Hd b Hj)|].
      now apply unique_owners_delete.
Qed.

Lemma a_world_unique : unique_owners (threads a_world).
Proof.
  intros a1 a2 t1 t2 H1 H2 J1 J2 Hh.
  cbn in H1, H2.
  rewrite !lookup_insert, lookup_singleton in H1, H2.
  repeat case_decide; simplify_eq; done.
Qed.

Lemma ownership_stays_unique_witness :
  unique_owners (threads a_world) /\
  (exists w', thread.move_assign 1 2 (answering 0 a_clock) a_world = Done 1%positive w' /\
              unique_owners (threads w')) /\
  (exists w', thread.move_ctor 4 2 (answering 0 a_clock) a_world = Done tt w' /\
              unique_owners (threads w')) /\
  (exists w', thread.join Debug 1 None (answering 0 a_clock) a_world = Done tt w' /\
              unique_owners (threads w')) /\
  (exists w', thread.detach Debug 1 (answering 0 a_clock) a_world = Done tt w' /\
              unique_owners (threads w')) /\
  (exists w', thread.default_ctor 4 (answering 0 a_clock) a_world = Done tt w' /\
              unique_owners (threads w')) /\
  (exists w', thread.dtor Debug 1 (answering 0 a_clock) a_world = Done tt w' /\
              unique_owners (threads w')).
Proof.
  split; [exact a_world_unique|].
  apply (ownership_stays_unique Debug (answering 0 a_clock) a_world 1 2 4 None
           (mk_thread 42 true) (mk_thread 43 true));
    [exact a_world_unique | reflexivity | reflexivity | reflexivity].
Defined.

(* ===================================================================== *)
(* Further properties: the join loop of playwpth.cxx                      *)
(* ===================================================================== *)






(* ===================================================================== *)
(* Further properties: class mutex, class rwlock, class spinlock          *)
(* ===================================================================== *)

Section MutexCalls.
Variables (e : env) (w : world) (this : addr) (v : pthread_mutex_t).
Hypothesis Hlive : mutexes w !! this = Some v.

Lemma sys_lock_done :
  os_result e (pthread_mutex_lock this) = 0 ->
  sys (pthread_mutex_lock this) e w
  = Done 0 (set_mutexes (insert this (LockedBy (self e)))
              (logged w [Call (pthread_mutex_lock this)])).
Proof.
  intros Hr. unfold sys.
  step ltac:(apply emit_done). step ltac:(reflexivity).
  cbn [os_effect]. rewrite Hr. cbn [Z.eqb].
  step ltac:(unfold acquire; cbn; rewrite Hlive; reflexivity). reflexivity.
Qed.

Lemma sys_unlock_done :
  os_result e (pthread_mutex_unlock this) = 0 ->
  sys (pthread_mutex_unlock this) e w
  = Done 0 (set_mutexes (insert this Unlocked)
              (logged w [Call (pthread_mutex_unlock this)])).
Proof.
  intros Hr. unfold sys.
  step ltac:(apply emit_done). step ltac:(reflexivity).
  cbn [os_effect]. rewrite Hr. cbn [Z.eqb].
  step ltac:(unfold release; cbn; rewrite Hlive; reflexivity). reflexivity.
Qed.

Lemma lock_done b :
  os_result e (pthread_mutex_lock this) = 0 ->
  mutex.lock b this e w
  = Done tt match b with
            | Debug => set_mutexes (insert this (LockedBy (self e)))
                         (logged w [Call (pthread_mutex_lock this)])
            | NDEBUG => w
            end.
Proof.
  intros Hr. unfold mutex.lock. destruct b.
  - eapply ASSERT_EQ0_debug. now apply sys_lock_done.
  - apply ASSERT_EQ0_ndebug.
Qed.

Lemma unlock_done b :
  os_result e (pthread_mutex_unlock this) = 0 ->
  mutex.unlock b this e w
  = Done tt match b with
            | Debug => set_mutexes (insert this Unlocked)
                         (logged w [Call (pthread_mutex_unlock this)])
            | NDEBUG => w
            end.
Proof.
  intros Hr. unfold mutex.unlock. destruct b.
  - eapply ASSERT_EQ0_debug. now apply sys_unlock_done.
  - apply ASSERT_EQ0_ndebug.
Qed.
End MutexCalls.

(** X9: lock() and unlock() hand the library the address of the wrapper's own
    handle.  With the library reporting success, in a build with the calls
    compiled in lock() makes the caller the owner of this mutex and unlock()
    releases it again, by one pthread_mutex_lock and one pthread_mutex_unlock
    on that address; under NDEBUG neither call is made and the mutex object
    stays as it was, so lock() acquires nothing.  No other object changes. *)
Theorem lock_then_unlock b e w this v :
  mutexes w !! this = Some v ->
  os_result e (pthread_mutex_lock this) = 0 ->
  os_result e (pthread_mutex_unlock this) = 0 ->
  exists w1 w2,
    mutex.lock b this e w = Done tt w1 /\
    mutexes w1 !! this = Some match b with Debug => LockedBy (self e) | NDEBUG => v end /\
    mutex.unlock b this e w1 = Done tt w2 /\
    mutexes w2 !! this = Some match b with Debug => Unlocked | NDEBUG => v end /\
    log w2 = log w ++ when_checked b [Call (pthread_mutex_lock this);
                                      Call (pthread_mutex_unlock this)] /\
    threads w2 = threads w /\
    forall a, a <> this -> mutexes w2 !! a = mutexes w !! a.
Proof.
  intros Hv Hlock Hunlock. destruct b.
  - eexists _, _. split; [apply (lock_done e w this v Hv Debug Hlock)|].
    set (w1 := set_mutexes _ _).
    assert (H1 : mutexes w1 !! this = Some (LockedBy (self e))) by apply lookup_insert_eq.
    split; [exact H1|].
    split; [apply (unlock_done e w1 this _ H1 Debug Hunlock)|]. cbn.
    split; [apply lookup_insert_eq|]. split; [now rewrite <- app_assoc|].
    split; [reflexivity|]. intros a Ha. now rewrite !lookup_insert_ne.
  - exists w, w. split; [apply (lock_done e w this v Hv NDEBUG Hlock)|].
    split; [exact Hv|]. split; [apply (unlock_done e w this v Hv NDEBUG Hunlock)|].
    split; [exact Hv|]. cbn. now rewrite app_nil_r.
Qed.

Lemma lock_then_unlock_witness :
  mutexes a_world !! 1%positive = Some (LockedBy 7) /\
  exists w1 w2,
    mutex.lock NDEBUG 1 (answering 0 a_clock) a_world = Done tt w1 /\
    mutexes w1 !! 1%positive = Some (LockedBy 7) /\
    mutex.unlock NDEBUG 1 (answering 0 a_clock) w1 = Done tt w2 /\
    mutexes w2 !! 1%positive = Some (LockedBy 7) /\
    log w2 = log a_world ++ when_checked NDEBUG [Call (pthread_mutex_lock 1);
                                                 Call (pthread_mutex_unlock 1)] /\
    threads w2 = threads a_world /\
    forall a, a <> 1%positive -> mutexes w2 !! a = mutexes a_world !! a.
Proof.
  split; [reflexivity|].
  apply (lock_then_unlock NDEBUG (answering 0 a_clock) a_world 1 (LockedBy 7));
    reflexivity.
Defined.

(** X10: trylock() calls the library in every build, unlock() only where the
    calls inside ASSERT_EQ0 are compiled in.  So a successful trylock()
    followed by unlock() leaves the mutex released in a build with the calls
    and still owned by the caller under NDEBUG, where the only call made is
    pthread_mutex_trylock. *)
Theorem trylock_then_unlock b e w this v :
  mutexes w !! this = Some v ->
  os_result e (pthread_mutex_trylock this) = 0 ->
  os_result e (pthread_mutex_unlock this) = 0 ->
  exists w',
    (ok ← mutex.trylock b this; mutex.unlock b this;; mret ok) e w = Done true w' /\
    mutexes w' !! this
    = Some match b with Debug => Unlocked | NDEBUG => LockedBy (self e) end /\
    log w' = log w ++ Call (pthread_mutex_trylock this)
                      :: when_checked b [Call (pthread_mutex_unlock this)].
Proof.
  intros Hv Htry Hunlock.
  rewrite (bind_done _ _ _ _ _ _ (mutex_trylock_acquired b e w this v Hv Htry)).
  set (w1 := set_mutexes _ _).
  assert (H1 : mutexes w1 !! this = Some (LockedBy (self e))) by apply lookup_insert_eq.
  rewrite (bind_done _ _ _ _ _ _ (unlock_done e w1 this _ H1 b Hunlock)).
  eexists. split; [reflexivity|]. destruct b; cbn.
  - split; [apply lookup_insert_eq | now rewrite <- app_assoc].
  - split; [apply lookup_insert_eq | reflexivity].
Qed.

Lemma trylock_then_unlock_witness :
  mutexes a_world !! 1%positive = Some (LockedBy 7) /\
  exists w',
    (ok ← mutex.trylock NDEBUG 1; mutex.unlock NDEBUG 1;; mret ok)
      (answering 0 a_clock) a_world = Done true w' /\
    mutexes w' !! 1%positive = Some (LockedBy (self (answering 0 a_clock))) /\
    log w' = log a_world ++ Call (pthread_mutex_trylock 1)
                            :: when_checked NDEBUG [Call (pthread_mutex_unlock 1)].
Proof.
  split; [reflexivity|].
  apply (trylock_then_unlock NDEBUG (answering 0 a_clock) a_world 1 (LockedBy 7));
    reflexivity.
Defined.

(** X11: mutex::trylock() never aborts and never blocks the caller; it makes
    exactly one call, pthread_mutex_trylock on the wrapper's own handle, in
    either build; it returns false exactly when that call answers EBUSY; and
    the mutex object changes (the caller becomes its owner) only when the
    call answers 0. *)
Theorem mutex_trylock_outcome b e w this v :
  mutexes w !! this = Some v ->
  exists ok w',
    mutex.trylock b this e w = Done ok w' /\
    (ok = false <-> os_result e (pthread_mutex_trylock this) = EBUSY) /\
    log w' = log w ++ [Call (pthread_mutex_trylock this)] /\
    threads w' = threads w /\
    mutexes w' = (if os_result e (pthread_mutex_trylock this) =? 0
                  then <[this := LockedBy (self e)]> (mutexes w)
                  else mutexes w).
Proof.
  intros Hv. destruct (Z.eqb_spec (os_result e (pthread_mutex_trylock this)) 0) as [Hz|Hnz].
  - eexists _, _. split; [apply (mutex_trylock_acquired b e w this v Hv Hz)|].
    rewrite Hz. cbn. repeat split; try done; unfold EBUSY; discriminate.
  - eexists _, _. split; [apply (mutex_trylock_failed b e w this Hnz)|].
    cbn. repeat split; try done.
    + intros H. apply negb_false_iff in H. now apply Z.eqb_eq.
    + intros H. apply negb_false_iff. now apply Z.eqb_eq.
Qed.

Lemma mutex_trylock_outcome_witness :
  mutexes a_world !! 1%positive = Some (LockedBy 7) /\
  exists ok w',
    mutex.trylock Debug 1 (answering EBUSY a_clock) a_world = Done ok w' /\
    (ok = false <-> os_result (answering EBUSY a_clock) (pthread_mutex_trylock 1) = EBUSY) /\
    log w' = log a_world ++ [Call (pthread_mutex_trylock 1)] /\
    threads w' = threads a_world /\
    mutexes w' = (if os_result (answering EBUSY a_clock) (pthread_mutex_trylock 1) =? 0
                  then <[1%positive := LockedBy (self (answering EBUSY a_clock))]> (mutexes a_world)
                  else mutexes a_world).
Proof.
  split; [reflexivity|].
  apply (mutex_trylock_outcome Debug (answering EBUSY a_clock) a_world 1 (LockedBy 7)).
  reflexivity.
Defined.

(** X12: rwlock::tryrdlock() and rwlock::trywrlock() never abort; each makes
    exactly one call on the wrapper's own handle in either build,
    pthread_rwlock_tryrdlock for the first and pthread_rwlock_trywrlock for
    the second, and returns false exactly when its call answers EBUSY, true
    for every other answer.  (What a successful call does to the lock itself
    is the library's and is not part of the statement.) *)
Theorem rwlock_try_outcome b e w this :
  (exists ok w',
     rwlock.tryrdlock b this e w = Done ok w' /\
     log w' = log w ++ [Call (pthread_rwlock_tryrdlock this)] /\
     (ok = false <-> os_result e (pthread_rwlock_tryrdlock this) = EBUSY)) /\
  (exists ok w',
     rwlock.trywrlock b this e w = Done ok w' /\
     log w' = log w ++ [Call (pthread_rwlock_trywrlock this)] /\
     (ok = false <-> os_result e (pthread_rwlock_trywrlock this) = EBUSY)).
Proof.
  split; eexists _, _;
    (split; [first [apply tryrdlock_done | apply trywrlock_done]|]);
    (split; [reflexivity|]);
    rewrite negb_false_iff; apply Z.eqb_eq.
Qed.

(** X13: spinlock::trylock() never aborts and never spins; it makes exactly
    one call, pthread_spin_trylock on the wrapper's own handle, in either
    build, and returns false exactly when the call answers EBUSY, true for
    every other answer.  (What a successful call does to the lock itself is
    the library's and is not part of the statement.) *)
Theorem spinlock_trylock_outcome b e w this :
  exists ok w',
    spinlock.trylock b this e w = Done ok w' /\
    log w' = log w ++ [Call (pthread_spin_trylock this)] /\
    (ok = false <-> os_result e (pthread_spin_trylock this) = EBUSY).
Proof.
  eexists _, _. split; [apply spin_trylock_done|]. split; [reflexivity|].
  rewrite negb_false_iff. apply Z.eqb_eq.
Qed.

(* ===================================================================== *)
(* Further properties: class cond_var                                     *)
(* ===================================================================== *)


(** X15: timedwait() returns 0 or ETIMEDOUT and nothing else, in either
    build and whatever the library answers; it returns ETIMEDOUT exactly
    when pthread_cond_timedwait does; it makes exactly one library call, with
    the deadline computed from the clock; and when it returns every mutex
    object and thread object is as before the call (the local copy of the
    handle is gone). *)
Theorem timedwait_outcome b e w this mtx nsec v :
  mutexes w !! mtx = Some v ->
  let c := pthread_cond_timedwait this (address_of_local w)
             (cond_var.abstime (os_clock e) nsec) in
  exists r w' evs,
    cond_var.timedwait b this mtx nsec e w = Done r w' /\
    (r = 0 \/ r = ETIMEDOUT) /\
    (r = ETIMEDOUT <-> os_result e c = ETIMEDOUT) /\
    mutexes w' = mutexes w /\
    threads w' = threads w /\
    log w' = log w ++ Call c :: evs /\
    forall c', Call c' ∉ evs.
Proof.
  intros Hv c. rewrite (timedwait_done e w this mtx v Hv b nsec). fold c.
  destruct (Z.eqb_spec (os_result e c) ETIMEDOUT) as [Ht|Ht];
    eexists _, _, _; (split; [reflexivity|]).
  - split; [now right|]. split; [done|]. cbn.
    split; [reflexivity|]. split; [reflexivity|]. split; [reflexivity|].
    intros c' Hin. destruct ((os_result e c =? 0) || true);
      rewrite ?elem_of_cons, ?elem_of_nil in Hin; intuition discriminate.
  - split; [now left|]. split; [split; [discriminate | contradiction]|]. cbn.
    split; [reflexivity|]. split; [reflexivity|]. split; [reflexivity|].
    intros c' Hin. destruct ((os_result e c =? 0) || false);
      rewrite ?elem_of_cons, ?elem_of_nil in Hin; intuition discriminate.
Qed.

Lemma timedwait_outcome_witness :
  mutexes a_world !! 1%positive = Some (LockedBy 7) /\
  exists r w' evs,
    cond_var.timedwait NDEBUG 5 1 2 (answering ETIMEDOUT a_clock) a_world = Done r w' /\
    (r = 0 \/ r = ETIMEDOUT) /\
    (r = ETIMEDOUT <->
     os_result (answering ETIMEDOUT a_clock)
       (pthread_cond_timedwait 5 (address_of_local a_world)
          (cond_var.abstime (os_clock (answering ETIMEDOUT a_clock)) 2)) = ETIMEDOUT) /\
    mutexes w' = mutexes a_world /\
    threads w' = threads a_world /\
    log w' = log a_world
             ++ Call (pthread_cond_timedwait 5 (address_of_local a_world)
                        (cond_var.abstime (os_clock (answering ETIMEDOUT a_clock)) 2)) :: evs /\
    forall c', Call c' ∉ evs.
Proof.
  split; [reflexivity|].
  apply (timedwait_outcome NDEBUG (answering ETIMEDOUT a_clock) a_world 5 1 2 (LockedBy 7)).
  reflexivity.
Defined.

(* ===================================================================== *)
(* Further properties: the deadline arithmetic                            *)
(* ===================================================================== *)

Section DeadlineAlgebra.
Import cond_var.
Variable now : timespec.
Hypothesis Hclock : 0 <= tv_nsec now < NS_PER_SEC.
Hypothesis Hsec : in_long (tv_sec now).

(* A negative duration never takes the carry branch, whatever the sign of
   the sum of the nanoseconds. *)
Lemma abstime_negative_fields nsec :
  LONG_MIN <= nsec < 0 ->
  LONG_MIN <= tv_sec now + Z.quot nsec NS_PER_SEC ->
  abstime now nsec
  = mk_timespec (tv_sec now + Z.quot nsec NS_PER_SEC)
                (tv_nsec now + Z.rem nsec NS_PER_SEC).
Proof.
  intros Hnsec Hfit.
  unfold abstime, long_add, long_sub, long_mul, long_div, long_rem.
  unfold in_long, LONG_MIN, LONG_MAX, NS_PER_SEC in *.
  pose proof (Z.rem_bound_pos_neg nsec 1000000000 ltac:(lia) ltac:(lia)) as Hr.
  pose proof (Z.mul_quot_ge nsec 1000000000 ltac:(lia) ltac:(lia)) as Hq.
  set (q := Z.quot nsec 1000000000) in *.
  set (r := Z.rem nsec 1000000000) in *.
  no_wrap q. no_wrap r. no_wrap (tv_sec now + q). no_wrap (tv_nsec now + r).
  assert (Hover : Z.quot (tv_nsec now + r) 1000000000 = 0)
    by (apply Z.quot_small_iff; lia).
  now rewrite Hover.
Qed.
End DeadlineAlgebra.

(** X16: the deadline arithmetic composes.  For a clock reading with its
    nanoseconds below one second: a duration of 0 gives the clock reading
    itself, and for nonnegative durations whose deadline fits time_t, the
    deadline of n2 computed from the deadline of n1 is the deadline of
    n1 + n2. *)
Theorem abstime_adds_up now n1 n2 :
  0 <= tv_nsec now < cond_var.NS_PER_SEC ->
  in_long (tv_sec now) ->
  0 <= n1 -> 0 <= n2 -> n1 + n2 <= LONG_MAX ->
  tv_sec now + (tv_nsec now + (n1 + n2)) / cond_var.NS_PER_SEC <= LONG_MAX ->
  cond_var.abstime now 0 = now /\
  cond_var.abstime (cond_var.abstime now n1) n2 = cond_var.abstime now (n1 + n2).
Proof.
  intros Hclock Hsec H1 H2 Hsum Hfit.
  assert (HN : 0 < cond_var.NS_PER_SEC) by (unfold cond_var.NS_PER_SEC; lia).
  assert (Hmono : (tv_nsec now + n1) / cond_var.NS_PER_SEC
                  <= (tv_nsec now + (n1 + n2)) / cond_var.NS_PER_SEC)
    by (apply Z.div_le_mono; lia).
  assert (Hpos : 0 <= (tv_nsec now + n1) / cond_var.NS_PER_SEC)
    by (apply Z.div_pos; lia).
  split.
  - rewrite abstime_nonneg; try done; unfold in_long, LONG_MIN, LONG_MAX in *; try lia.
    + rewrite Z.add_0_r, Z.div_small, Z.mod_small by lia.
      rewrite Z.add_0_r. now destruct now.
    + rewrite Z.add_0_r, Z.div_small by lia. lia.
  - rewrite (abstime_nonneg now n1); try done;
      unfold in_long, LONG_MIN, LONG_MAX in *; try lia.
    rewrite (abstime_nonneg now (n1 + n2)); try done;
      unfold in_long, LONG_MIN, LONG_MAX in *; try lia.
    pose proof (Z.mod_pos_bound (tv_nsec now + n1) cond_var.NS_PER_SEC HN) as Hm.
    pose proof (Z.div_mod (tv_nsec now + n1) cond_var.NS_PER_SEC ltac:(lia)) as Hdm.
    set (q := (tv_nsec now + n1) / cond_var.NS_PER_SEC) in *.
    set (r := (tv_nsec now + n1) mod cond_var.NS_PER_SEC) in *.
    assert (Hq : (tv_nsec now + (n1 + n2)) / cond_var.NS_PER_SEC
                 = q + (r + n2) / cond_var.NS_PER_SEC).
    { replace (tv_nsec now + (n1 + n2)) with ((r + n2) + q * cond_var.NS_PER_SEC) by lia.
      rewrite Z.div_add by lia. lia. }
    assert (Hr : (tv_nsec now + (n1 + n2)) mod cond_var.NS_PER_SEC
                 = (r + n2) mod cond_var.NS_PER_SEC).
    { replace (tv_nsec now + (n1 + n2)) with ((r + n2) + q * cond_var.NS_PER_SEC) by lia.
      now rewrite Z.mod_add by lia. }
    rewrite abstime_nonneg; cbn [tv_sec tv_nsec]; try done;
      unfold in_long, LONG_MIN, LONG_MAX in *; try lia.
    rewrite Hq, Hr. f_equal. lia.
Qed.

Lemma abstime_adds_up_witness :
  0 <= tv_nsec a_clock < cond_var.NS_PER_SEC /\
  cond_var.abstime a_clock 0 = a_clock /\
  cond_var.abstime (cond_var.abstime a_clock 600000000) 700000000
  = cond_var.abstime a_clock (600000000 + 700000000).
Proof.
  split; [simpl; unfold cond_var.NS_PER_SEC; lia|].
  apply (abstime_adds_up a_clock 600000000 700000000).
  - simpl; unfold cond_var.NS_PER_SEC; lia.
  - simpl; unfold in_long, LONG_MIN, LONG_MAX; lia.
  - lia.
  - lia.
  - unfold LONG_MAX; lia.
  - vm_compute; discriminate.
Defined.

(** X17: for every negative duration the deadline still denotes the clock
    reading plus the duration, a time before the clock reading, but its
    fields are only added: the nanosecond field lies strictly between
    -NS_PER_SEC and NS_PER_SEC, and it is a valid one (not negative) exactly
    when the clock's nanoseconds are at least the sub-second part of the
    duration. *)
Theorem abstime_negative_duration_value now nsec :
  0 <= tv_nsec now < cond_var.NS_PER_SEC ->
  in_long (tv_sec now) ->
  LONG_MIN <= nsec < 0 ->
  LONG_MIN <= tv_sec now + Z.quot nsec cond_var.NS_PER_SEC ->
  let d := cond_var.abstime now nsec in
  nanoseconds d = nanoseconds now + nsec /\
  nanoseconds d < nanoseconds now /\
  - cond_var.NS_PER_SEC < tv_nsec d < cond_var.NS_PER_SEC /\
  (0 <= tv_nsec d <-> - Z.rem nsec cond_var.NS_PER_SEC <= tv_nsec now).
Proof.
  intros Hclock Hsec Hnsec Hfit d. unfold d.
  rewrite (abstime_negative_fields now Hclock Hsec nsec Hnsec Hfit).
  unfold nanoseconds; cbn [tv_sec tv_nsec].
  pose proof (Z.quot_rem' nsec cond_var.NS_PER_SEC) as Hsplit.
  pose proof (Z.rem_bound_pos_neg nsec cond_var.NS_PER_SEC) as Hr.
  unfold cond_var.NS_PER_SEC, LONG_MIN in *.
  specialize (Hr ltac:(lia) ltac:(lia)). lia.
Qed.

Lemma abstime_negative_duration_value_witness :
  cond_var.abstime (mk_timespec 100 700000000) (-1500000000)
  = mk_timespec 99 200000000 /\
  nanoseconds (cond_var.abstime (mk_timespec 100 700000000) (-1500000000))
  = nanoseconds (mk_timespec 100 700000000) + -1500000000 /\
  nanoseconds (cond_var.abstime (mk_timespec 100 700000000) (-1500000000))
  < nanoseconds (mk_timespec 100 700000000) /\
  - cond_var.NS_PER_SEC
  < tv_nsec (cond_var.abstime (mk_timespec 100 700000000) (-1500000000))
  < cond_var.NS_PER_SEC /\
  (0 <= tv_nsec (cond_var.abstime (mk_timespec 100 700000000) (-1500000000))
   <-> - Z.rem (-1500000000) cond_var.NS_PER_SEC <= tv_nsec (mk_timespec 100 700000000)).
Proof.
  split; [reflexivity|].
  apply (abstime_negative_duration_value (mk_timespec 100 700000000) (-1500000000)).
  - simpl; unfold cond_var.NS_PER_SEC; lia.
  - simpl; unfold in_long, LONG_MIN, LONG_MAX; lia.
  - unfold LONG_MIN; lia.
  - vm_compute; discriminate.
Defined.
